(** * goday: the daily-note workflow of [main.go]

    A shallow embedding of the file operations of [main.go]
    ([extractSection], [createDailyNote], [openEmacs], [runDailyWorkflow],
    [runEmacsDaemon]) together with the parts of the Go standard library they
    call, and the properties of the written specification that concern them.

    Strings are Go strings: sequences of bytes, here [string] (a list of
    [ascii], one per byte).  The file system, the clock, the editor back end
    and the log of performed effects form an explicit [World] that every
    operation threads through. *)

From stdpp Require Import gmap strings list.
From Stdlib Require Import Ascii ZArith Lia.

Local Open Scope Z_scope.
Local Open Scope nat_scope.

(** ** Configuration constants (main.go, lines 24-35) *)

Definition FileExtension : string := ".org".
Definition SourceHeader : string := "* For tomorrow".
Definition DestinationHeader : string := "* TODO".
Definition DaemonSpinUpTime : nat := 20.
Definition DaemonOpenRetryTime : nat := 5.
Definition DoomLoadedMsg : string := "Doom loaded ".
Definition SuccessMsg : string := "Success".

(** ** The Go library functions used by the file operations *)

Definition byte (n : nat) : ascii := Ascii.ascii_of_nat n.
Definition LF : ascii := byte 10.
Definition CR : ascii := byte 13.
Definition nl : string := String LF "".

(** [strings.HasPrefix s prefix]. *)
Fixpoint strings_HasPrefix (s prefix : string) : bool :=
  match prefix, s with
  | "", _ => true
  | String p prefix', String c s' =>
      if decide (p = c) then strings_HasPrefix s' prefix' else false
  | String _ _, "" => false
  end.

(** [strings.Contains s substr]: [substr] occurs somewhere within [s]. *)
Fixpoint strings_Contains (s substr : string) : bool :=
  strings_HasPrefix s substr ||
  match s with
  | "" => false
  | String _ s' => strings_Contains s' substr
  end.

(** [unicode.IsSpace] on the UTF-8 encoded form.  The ASCII white space is
    tab, line feed, vertical tab, form feed, carriage return and space; the
    remaining white-space runes are U+0085, U+00A0, U+1680, U+2000..U+200A,
    U+2028, U+2029, U+202F, U+205F and U+3000.  [spaceRune bs] says that the
    byte sequence [bs] is the encoding of one of them. *)
Definition spaceRune (bs : list N) : bool :=
  match bs with
  | [c] => bool_decide (c ∈ [9; 10; 11; 12; 13; 32])
  | [194; c] => bool_decide (c = 133 ∨ c = 160)
  | [225; 154; 128] => true
  | [226; 128; c] =>
      bool_decide (128 ≤ c ≤ 138 ∨ c = 168 ∨ c = 169 ∨ c = 175)
  | [226; 129; 159] => true
  | [227; 128; 128] => true
  | _ => false
  end%N.

Definition codes (s : string) : list N :=
  Ascii.N_of_ascii <$> String.list_ascii_of_string s.
Definition ofCodes (bs : list N) : string :=
  String.string_of_list_ascii (Ascii.ascii_of_N <$> bs).

(** Width in bytes of the white-space rune that starts [bs]; 0 when [bs]
    does not start with one.  A rune is one to three bytes wide here, and
    no white-space encoding is a prefix of another. *)
Definition leadingSpace (bs : list N) : nat :=
  if spaceRune (take 1 bs) then 1
  else if spaceRune (take 2 bs) then 2
  else if spaceRune (take 3 bs) then 3
  else 0.

(** [strings.TrimLeftFunc s unicode.IsSpace]. *)
Fixpoint trimLeft (fuel : nat) (bs : list N) : list N :=
  match fuel with
  | 0 => bs
  | S fuel' =>
      match leadingSpace bs with
      | 0 => bs
      | w => trimLeft fuel' (drop w bs)
      end
  end.

(** Width of the white-space rune that ends a byte sequence, given the
    sequence reversed ([utf8.DecodeLastRuneInString] followed by
    [unicode.IsSpace]). *)
Definition trailingSpace (rbs : list N) : nat :=
  if spaceRune (reverse (take 1 rbs)) then 1
  else if spaceRune (reverse (take 2 rbs)) then 2
  else if spaceRune (reverse (take 3 rbs)) then 3
  else 0.

(** [strings.TrimRightFunc s unicode.IsSpace], on the reversed sequence. *)
Fixpoint trimRightRev (fuel : nat) (rbs : list N) : list N :=
  match fuel with
  | 0 => rbs
  | S fuel' =>
      match trailingSpace rbs with
      | 0 => rbs
      | w => trimRightRev fuel' (drop w rbs)
      end
  end.

(** [strings.TrimSpace s]: all leading and trailing white space removed. *)
Definition strings_TrimSpace (s : string) : string :=
  let bs := codes s in
  let l := trimLeft (length bs) bs in
  ofCodes (reverse (trimRightRev (length l) (reverse l))).

(** [bufio.ScanLines] driven by a [bufio.Scanner] over a whole input.

    [splitLines] cuts the input at every line feed; the last piece is what
    follows the last line feed (it is empty when the input ends in one). *)
Fixpoint splitLines (s : string) : string * list string :=
  match s with
  | "" => ("", [])
  | String c s' =>
      let '(cur, rest) := splitLines s' in
      if decide (c = LF) then ("", cur :: rest) else (String c cur, rest)
  end.

(** The pieces the scanner sees, in order: every terminated line, and the
    unterminated last one when it is not empty. *)
Definition rawLines (s : string) : list string :=
  let '(first, rest) := splitLines s in
  let all := first :: rest in
  match last all with
  | Some "" => take (length all - 1) all
  | _ => all
  end.

(** [dropCR]: one trailing carriage return is removed from a line. *)
Definition dropCR (line : string) : string :=
  match String.rev line with
  | String c r => if decide (c = CR) then String.rev r else line
  | "" => line
  end.

(** [bufio.MaxScanTokenSize]: the scanner stops for good at the first
    line that does not fit its buffer. *)
Definition MaxScanTokenSize : N := 65536.

Definition fitsBuffer (line : string) : bool :=
  (N.of_nat (String.length line) <? MaxScanTokenSize)%N.

Fixpoint takeFitting (ls : list string) : list string :=
  match ls with
  | [] => []
  | l :: ls' => if fitsBuffer l then l :: takeFitting ls' else []
  end.

(** The successive values of [scanner.Text()] over input [s]. *)
Definition scanLines (s : string) : list string :=
  dropCR <$> takeFitting (rawLines s).

(** [time.Time] as far as the workflow looks at it: the calendar date. *)
Record Date := mkDate { year : nat; month : nat; day : nat }.

Definition digit (n : nat) : ascii := byte (48 + n mod 10).

(** The [width] low-order decimal digits of [n]. *)
Fixpoint lowDigits (width : nat) (n : nat) : string :=
  match width with
  | 0 => ""
  | S width' => lowDigits width' (n / 10) +:+ String (digit n) ""
  end.

(** The decimal digits of [n], none for 0. *)
Fixpoint highDigits (fuel : nat) (n : nat) : string :=
  match fuel with
  | 0 => ""
  | S fuel' =>
      if decide (n = 0) then ""
      else highDigits fuel' (n / 10) +:+ String (digit n) ""
  end.

(** [appendInt] of package [time]: [n] in decimal, padded with zeros to at
    least [width] digits. *)
Definition appendInt (width : nat) (n : nat) : string :=
  highDigits n (n / 10 ^ width) +:+ lowDigits width n.

(** [t.Format(DateFormat)] with [DateFormat = "2006-01-02"]. *)
Definition Format (t : Date) : string :=
  appendInt 4 (year t) +:+ "-" +:+ appendInt 2 (month t) +:+ "-" +:+ appendInt 2 (day t).

Definition leapYear (y : nat) : bool :=
  bool_decide (y mod 4 = 0 ∧ (y mod 100 ≠ 0 ∨ y mod 400 = 0)).

Definition daysIn (y m : nat) : nat :=
  match m with
  | 2 => if leapYear y then 29 else 28
  | 4 | 6 | 9 | 11 => 30
  | _ => 31
  end.

(** [t.AddDate(0, 0, -1)]: the day before, normalised. *)
Definition previousDay (t : Date) : Date :=
  if decide (1 < day t) then mkDate (year t) (month t) (day t - 1)
  else if decide (1 < month t) then
    mkDate (year t) (month t - 1) (daysIn (year t) (month t - 1))
  else mkDate (year t - 1) 12 31.

(** ** Data model (main.go, lines 86-104) *)

Record Project := mkProject {
  Name : string;
  Path : string;
  Starred : bool;
  LastOpened : Z;
  LastFileCreated : string;
  PreviousFileCreated : string;
}.

(** The Bubble Tea model, without its text-input widget. *)
Record model := mkModel {
  projects : list Project;
  cursor : Z;
  addingNew : bool;
  selectedPath : string;
  width : Z;
  height : Z;
  daemonSpunUp : bool;
}.

Definition setPreviousFileCreated (v : string) (p : Project) : Project :=
  mkProject (Name p) (Path p) (Starred p) (LastOpened p) (LastFileCreated p) v.

Definition setLastFileCreated (v : string) (p : Project) : Project :=
  mkProject (Name p) (Path p) (Starred p) (LastOpened p) v (PreviousFileCreated p).

Definition setProjects (ps : list Project) (m : model) : model :=
  mkModel ps (cursor m) (addingNew m) (selectedPath m) (width m) (height m)
    (daemonSpunUp m).

(** ** The world outside the program *)

(** What a path names: a regular file with its bytes (and whether this
    process may read it), or a directory. *)
Inductive Node :=
| File (readable : bool) (content : string)
| Dir.

(** Effects on the outside world, logged in the order they happen. *)
Inductive Event :=
| EvCreate (path : string) (ok : bool)      (* os.Create *)
| EvWrite (path : string) (content : string) (* buffered writes, flushed *)
| EvSaveConfig (ps : list Project)          (* saveConfig *)
| EvPrint (text : string)                   (* fmt.Printf *)
| EvSplitView (previous current : string)   (* the goroutine of openEmacs *)
| EvAttach (current : string) (ok : bool)   (* emacsclient -r, cmd.Run() *)
| EvSleep (seconds : nat)                   (* time.Sleep *)
| EvStartDaemon                             (* emacs --daemon, cmd.Start() *)
| EvWaitDaemon.                             (* cmd.Wait() *)

(** An unbuffered channel as the sending side meets it: how many receive
    operations the rest of the program still performs on it, and what has
    been received so far. *)
Record Chan := mkChan { receivers : nat; received : list string }.

(** The file system and the processes around the program.  [denied] are the
    paths at which a file cannot be created (permissions, missing
    directory); [now] is what the [n]-th reading of the clock returns and
    [attachable] whether the [n]-th run of the editor client succeeds;
    [chans] are the channels made so far. *)
Record World := mkWorld {
  fs : gmap string Node;
  denied : gset string;
  now : nat → Date;
  clockReads : nat;
  attachable : nat → bool;
  attempts : nat;
  chans : list Chan;
  trace : list Event;
}.

Definition setFs (f : gmap string Node) (w : World) : World :=
  mkWorld f (denied w) (now w) (clockReads w) (attachable w) (attempts w)
    (chans w) (trace w).

Definition setClockReads (n : nat) (w : World) : World :=
  mkWorld (fs w) (denied w) (now w) n (attachable w) (attempts w) (chans w)
    (trace w).

Definition setAttempts (n : nat) (w : World) : World :=
  mkWorld (fs w) (denied w) (now w) (clockReads w) (attachable w) n (chans w)
    (trace w).

Definition setChans (cs : list Chan) (w : World) : World :=
  mkWorld (fs w) (denied w) (now w) (clockReads w) (attachable w) (attempts w)
    cs (trace w).

Definition logEvent (e : Event) (w : World) : World :=
  mkWorld (fs w) (denied w) (now w) (clockReads w) (attachable w) (attempts w)
    (chans w) (trace w ++ [e]).

(** How a call ends: it returns, the process panics, or the goroutine
    blocks for ever. *)
Inductive Outcome (A : Type) :=
| Done (a : A) (w : World)
| Panicked (w : World)
| Blocked (w : World).
Arguments Done {A} a w.
Arguments Panicked {A} w.
Arguments Blocked {A} w.

Definition Go (A : Type) : Type := World → Outcome A.

Definition ret {A} (a : A) : Go A := λ w, Done a w.

Definition bind {A B} (c : Go A) (k : A → Go B) : Go B := λ w,
  match c w with
  | Done a w' => k a w'
  | Panicked w' => Panicked w'
  | Blocked w' => Blocked w'
  end.

Notation "x <- c ;; k" := (bind c (λ x, k))
  (at level 100, c at next level, k at level 200, right associativity).
Notation "'do' c ;; k" := (bind c (λ _, k))
  (at level 100, c at next level, k at level 200, right associativity).

Definition panic {A} : Go A := λ w, Panicked w.
Definition emit (e : Event) : Go unit := λ w, Done tt (logEvent e w).

(** [os.Stat(path)] returns a nil error: something is there, a file or a
    directory.  The only error of [os.Stat] here is [os.ErrNotExist]. *)
Definition statOk (w : World) (path : string) : bool :=
  bool_decide (is_Some (fs w !! path)).

(** A call that only looks at the world. *)
Definition look {A} (f : World → A) : Go A := λ w, Done (f w) w.

Definition os_Stat (path : string) : Go bool := look (λ w, statOk w path).

(** [os.Open(path)]: the node to read from, or nothing on error. *)
Definition os_Open (w : World) (path : string) : option Node :=
  match fs w !! path with
  | Some (File true c) => Some (File true c)
  | Some (File false _) => None
  | Some Dir => Some Dir
  | None => None
  end.

(** What a [bufio.Scanner] over an open node yields; reading a directory
    fails at once. *)
Definition scannerTexts (n : Node) : list string :=
  match n with
  | File _ c => scanLines c
  | Dir => []
  end.

(** [os.Create(path)]: creates or truncates the file; reports whether the
    error is nil. *)
Definition os_Create (path : string) : Go bool := λ w,
  if decide (path ∈ denied w) then Done false (logEvent (EvCreate path false) w)
  else
    match fs w !! path with
    | Some Dir => Done false (logEvent (EvCreate path false) w)
    | _ => Done true (logEvent (EvCreate path true)
                        (setFs (<[path := File true ""]> (fs w)) w))
    end.

(** A [bufio.Writer] on a created file, flushed and closed: the bytes reach
    the file.  The source drops the errors of its writes; writing to a file
    that could be created does not fail here. *)
Definition writeAll (path content : string) : Go unit := λ w,
  Done tt (logEvent (EvWrite path content)
             (setFs (<[path := File true content]> (fs w)) w)).

(** [time.Now()]. *)
Definition time_Now : Go Date := λ w,
  Done (now w (clockReads w)) (setClockReads (S (clockReads w)) w).

(** [cmd.Run()] of [emacsclient -r path]: whether the error is nil. *)
Definition runClient (path : string) : Go bool := λ w,
  let ok := attachable w (attempts w) in
  Done ok (logEvent (EvAttach path ok) (setAttempts (S (attempts w)) w)).

(** [time.Sleep(time.Second * n)]. *)
Definition time_Sleep (seconds : nat) : Go unit := emit (EvSleep seconds).

(** [saveConfig(c)]: the registry is handed to the persistence layer. *)
Definition saveConfig (c : list Project) : Go unit := emit (EvSaveConfig c).

(** [m.projects[m.cursor]]: an index out of range panics. *)
Definition currentProject (m : model) : Go Project := λ w,
  if decide (0 ≤ cursor m)%Z then
    match projects m !! Z.to_nat (cursor m) with
    | Some p => Done p w
    | None => Panicked w
    end
  else Panicked w.

(** [m.projects[m.cursor].f = v]. *)
Definition assignCurrent (f : Project → Project) (m : model) : Go model :=
  p <- currentProject m ;;
  ret (setProjects (<[Z.to_nat (cursor m) := f p]> (projects m)) m).

(** ** File operations (main.go, lines 387-534) *)

(** The scanning loop of [extractSection] (lines 470-482) over the texts
    the scanner still has to deliver; [capture] and [lines] are the local
    variables of the function. *)
Fixpoint scanLoop (targetHeader : string) (capture : bool)
    (lines : list string) (texts : list string) : list string :=
  match texts with
  | [] => lines
  | line :: texts' =>
      if decide (strings_TrimSpace line = targetHeader) then
        scanLoop targetHeader true lines texts'              (* continue *)
      else if capture then
        if strings_HasPrefix line "* " then lines            (* break *)
        else scanLoop targetHeader capture (lines ++ [line]) texts'
      else scanLoop targetHeader capture lines texts'
  end.

(** [extractSection(filename, targetHeader)] (lines 460-484). *)
Definition extractSection (w : World) (filename targetHeader : string)
    : list string :=
  match os_Open w filename with
  | None => []
  | Some file => scanLoop targetHeader false [] (scannerTexts file)
  end.

(** The [writer.WriteString] calls of [createDailyNote] (lines 439-448),
    accumulated in the writer's buffer. *)
Definition WriteString (buf s : string) : string := buf +:+ s.

Definition noteText (date : string) (contentToMigrate : list string) : string :=
  let buf := "" in
  let buf := WriteString buf ("#+TITLE: Daily Note " +:+ date +:+ nl +:+ nl) in
  let buf := WriteString buf (DestinationHeader +:+ nl) in
  let buf :=
    if decide (0 < length contentToMigrate) then
      foldl (λ b line, WriteString b (line +:+ nl)) buf contentToMigrate
    else WriteString buf ("  [ ] " +:+ nl) in
  WriteString buf (nl +:+ SourceHeader +:+ nl).

(** [createDailyNote(todayFile, yesterdayFile, m)] (lines 422-458); the
    result is the model [m] points to after the call. *)
Definition createDailyNote (todayFile yesterdayFile : string) (m : model)
    : Go model :=
  yesterdayThere <- os_Stat yesterdayFile ;;
  contentToMigrate <-
    (if yesterdayThere
     then look (λ w, extractSection w yesterdayFile SourceHeader)
     else ret []) ;;
  todayThere <- os_Stat todayFile ;;
  if todayThere then ret m
  else
    created <- os_Create todayFile ;;
    if negb created then ret m
    else
      t <- time_Now ;;
      do writeAll todayFile (noteText (Format t) contentToMigrate) ;;
      p <- currentProject m ;;
      m <- assignCurrent (setPreviousFileCreated (LastFileCreated p)) m ;;
      m <- assignCurrent (setLastFileCreated todayFile) m ;;
      do saveConfig (projects m) ;;
      ret m.

(** [openEmacs(currentFilePath, previousFilePath)] (lines 486-509): the
    split-view request is started on the side and its result dropped; the
    value returned is that of the blocking client run. *)
Definition openEmacs (currentFilePath previousFilePath : string) : Go bool :=
  do emit (EvSplitView previousFilePath currentFilePath) ;;
  runClient currentFilePath.

(** The retry loop of [runDailyWorkflow] (lines 415-418); [left] is
    [4 - i]. *)
Fixpoint retryLoop (left : nat) (emacsHasOpened : bool) (m : model) : Go bool :=
  match left with
  | 0 => ret emacsHasOpened
  | S left' =>
      if emacsHasOpened then ret emacsHasOpened
      else
        do time_Sleep DaemonOpenRetryTime ;;
        p <- currentProject m ;;
        emacsHasOpened <- openEmacs (LastFileCreated p) (PreviousFileCreated p) ;;
        retryLoop left' emacsHasOpened m
  end.

Section Workflow.

(** [filepath.Join] of the platform. *)
Variable filepath_Join : string → string → string.

(** The attach phase of [runDailyWorkflow] (lines 414-418), with the
    final value of [emacsHasOpened]. *)
Definition attachPhase (m : model) : Go bool :=
  p <- currentProject m ;;
  emacsHasOpened <- openEmacs (LastFileCreated p) (PreviousFileCreated p) ;;
  retryLoop 4 emacsHasOpened m.

(** [runDailyWorkflow(projectPath, m)] (lines 388-419).  The function has
    no result; the value here is the model behind the pointer [m]. *)
Definition runDailyWorkflow (projectPath : string) (m : model) : Go model :=
  rootThere <- os_Stat projectPath ;;
  if negb rootThere then
    do emit (EvPrint ("Project path does not exist: " +:+ projectPath +:+ nl)) ;;
    ret m
  else
    t <- time_Now ;;
    let todayFilename := Format t +:+ FileExtension in
    p <- currentProject m ;;
    let yesterdayPath :=
      if decide (0 < String.length (LastFileCreated p)) then LastFileCreated p
      else filepath_Join projectPath (Format (previousDay t) +:+ FileExtension) in
    let todayPath := filepath_Join projectPath todayFilename in
    m <- createDailyNote todayPath yesterdayPath m ;;
    do attachPhase m ;;
    ret m.

End Workflow.

(** ** The back-end monitor (main.go, lines 138-150 and 513-534) *)

(** [make(chan string)]; the new channel's index is returned.  [n] is the
    number of receive operations the program goes on to perform on it. *)
Definition make_chan (n : nat) : Go nat := λ w,
  Done (length (chans w)) (setChans (chans w ++ [mkChan n []]) w).

(** [ch <- msg]: completes when a receiver takes the message, and blocks
    for ever when none is left. *)
Definition send (ch : nat) (msg : string) : Go unit := λ w,
  match chans w !! ch with
  | Some (mkChan (S n) got) =>
      Done tt (setChans (<[ch := mkChan n (got ++ [msg])]> (chans w)) w)
  | _ => Blocked w
  end.

Definition logPath : string :=
  "C:\Users\Ramand\Desktop\goTerminal\firstApp\output.log".

(** The loop over the scanner on the daemon's standard error
    (lines 525-531). *)
Fixpoint monitorLoop (texts : list string) (returnChan : nat) : Go unit :=
  match texts with
  | [] => ret tt
  | line :: texts' =>
      if strings_Contains line DoomLoadedMsg then
        do send returnChan SuccessMsg ;;
        monitorLoop texts' returnChan
      else monitorLoop texts' returnChan
  end.

(** [runEmacsDaemon(returnChan)] (lines 513-534); [stderr] is everything
    the daemon writes to its standard error before closing it. *)
Definition runEmacsDaemon (stderr : string) (returnChan : nat) : Go unit :=
  created <- os_Create logPath ;;
  if negb created then panic
  else
    do emit EvStartDaemon ;;
    do monitorLoop (scanLines stderr) returnChan ;;
    emit EvWaitDaemon.

(** The messages of the update loop (lines 106-107). *)
Inductive Msg := DaemonReadyMsg | StartDaemonMsg.

(** [emacsRunResult := <-ch] after the goroutine running the daemon has
    gone as far as it can: the first message received, or blocked for ever
    when there is none. *)
Definition receiveFirst (ch : nat) : Go string := λ w,
  match chans w !! ch with
  | Some (mkChan _ (msg :: _)) => Done msg w
  | _ => Blocked w
  end.

(** The command started on [StartDaemonMsg] (lines 139-150): it makes the
    channel, runs the daemon on the side and receives from the channel
    once.  A panic of the goroutine ends the process; a goroutine that has
    returned or is blocked leaves the receiving side running. *)
Definition startDaemonCmd (stderr : string) : Go (option Msg) :=
  do emit (EvPrint ("xd" +:+ nl)) ;;
  ch <- make_chan 1 ;;
  emacsRunResult <- (λ w,
    match runEmacsDaemon stderr ch w with
    | Done _ w' | Blocked w' => receiveFirst ch w'
    | Panicked w' => Panicked w'
    end) ;;
  if decide (emacsRunResult = SuccessMsg) then ret (Some DaemonReadyMsg)
  else ret None.

(** ** Reading the results *)

(** The world a call leaves behind, however it ends. *)
Definition worldOf {A} (o : Outcome A) : World :=
  match o with
  | Done _ w | Panicked w | Blocked w => w
  end.

(** [m.cursor] is a valid index into [m.projects]. *)
Definition cursorInRange (m : model) : Prop :=
  (0 ≤ cursor m)%Z ∧ Z.to_nat (cursor m) < length (projects m).

(** A regular file this process can open for reading. *)
Definition readableFile (w : World) (path : string) : Prop :=
  ∃ content, fs w !! path = Some (File true content).

Definition isCreate (path : string) (e : Event) : bool :=
  match e with
  | EvCreate p _ => bool_decide (p = path)
  | _ => false
  end.

Definition isWrite (path : string) (e : Event) : bool :=
  match e with
  | EvWrite p _ => bool_decide (p = path)
  | _ => false
  end.

Definition isAttach (e : Event) : bool :=
  match e with
  | EvAttach _ _ => true
  | _ => false
  end.

(** How often a file is created or truncated, and how often written, in a
    trace. *)
Definition creations (path : string) (tr : list Event) : nat :=
  length (List.filter (isCreate path) tr).
Definition fileWrites (path : string) (tr : list Event) : nat :=
  length (List.filter (isWrite path) tr).
Definition attachAttempts (tr : list Event) : nat :=
  length (List.filter isAttach tr).

(** [text] terminated by a line feed, for each line. *)
Definition joinLines (ls : list string) : string :=
  foldr (λ l rest, l +:+ nl +:+ rest) "" ls.

(** *** Sections of a note *)

Definition isMarker (marker line : string) : bool :=
  bool_decide (strings_TrimSpace line = marker).

Definition isTopLevel (line : string) : bool := strings_HasPrefix line "* ".

(** What follows the first line accepted by [p]. *)
Fixpoint afterFirst (p : string → bool) (ls : list string) : list string :=
  match ls with
  | [] => []
  | l :: ls' => if p l then ls' else afterFirst p ls'
  end.

(** The longest prefix whose lines are all accepted by [p]. *)
Fixpoint takeWhile (p : string → bool) (ls : list string) : list string :=
  match ls with
  | [] => []
  | l :: ls' => if p l then l :: takeWhile p ls' else []
  end.

(** The section as the specification words it: the lines after the first
    marker line and before the next line that starts a top-level header. *)
Definition sectionAsSpecified (marker : string) (texts : list string)
    : list string :=
  takeWhile (λ l, negb (isTopLevel l)) (afterFirst (isMarker marker) texts).

(** The section as the loop delimits it: after the first marker line, up to
    the next top-level header that is not the marker again, without the
    lines that are the marker again. *)
Definition sectionAsScanned (marker : string) (texts : list string)
    : list string :=
  List.filter (λ l, negb (isMarker marker l))
    (takeWhile (λ l, isMarker marker l || negb (isTopLevel l))
       (afterFirst (isMarker marker) texts)).

(** ** Reading notes, traces and outcomes: further vocabulary *)

(** What [createDailyNote] migrates from the reference note. *)
Definition migrated (w : World) (yesterdayFile : string) : list string :=
  if statOk w yesterdayFile then extractSection w yesterdayFile SourceHeader
  else [].

(** The linkage shift of lines 455-456. *)
Definition shiftLinkage (todayFile : string) (p : Project) : Project :=
  setLastFileCreated todayFile (setPreviousFileCreated (LastFileCreated p) p).

(** The lines under the to-do header: the migrated ones, or the empty
    checkbox when there are none. *)
Definition todoLines (contentToMigrate : list string) : list string :=
  match contentToMigrate with
  | [] => ["  [ ] "]
  | _ => contentToMigrate
  end.

(** One failed attempt, and the events of [n] failed retries. *)
Definition failedAttempt (cur prev : string) : list Event :=
  [EvSplitView prev cur; EvAttach cur false].

Definition failedRetries (n : nat) (cur prev : string) : list Event :=
  concat (replicate n (EvSleep DaemonOpenRetryTime :: failedAttempt cur prev)).

Definition matches (line : string) : bool := strings_Contains line DoomLoadedMsg.

(** Number of lines of the stream that contain the marker. *)
Definition matchCount (texts : list string) : nat :=
  length (List.filter matches texts).

(** The log file of the monitor can be created or truncated. *)
Definition logCreatable (w : World) : Prop :=
  (logPath ∉ denied w) ∧ (fs w !! logPath ≠ Some Dir).

Definition exampleClock : nat → Date := λ _, mkDate 2024 1 2.

(** Yesterday's note, with two unfinished items. *)
Definition yesterdayNote : string :=
  joinLines ["#+TITLE: Daily Note 2024-01-01"; ""; "* TODO"; "  [ ] ";
             ""; "* For tomorrow"; "- task1"; "- task2"].

(** A note in which the marker comes twice before the next header. *)
Definition twiceMarkedNote : string :=
  joinLines ["* For tomorrow"; "- a"; "* For tomorrow"; "- b"; "* Done"; "- c"].

Definition exampleProject : Project :=
  mkProject "notes" "/notes" false 0 "2024-01-01.org" "".

Definition exampleModel : model :=
  mkModel [exampleProject] 0 false "/notes" 80 24 false.

(** The project directory and yesterday's note; the back end never lets a
    client attach. *)
Definition exampleWorld : World :=
  mkWorld {[ "/notes" := Dir; "2024-01-01.org" := File true yesterdayNote;
             "twice.org" := File true twiceMarkedNote;
             "secret.org" := File false yesterdayNote ]}
    ∅ exampleClock 0 (λ _, false) 0 [] [].

(** The same, where no file can be created. *)
Definition readOnlyWorld : World :=
  mkWorld (fs exampleWorld) {[ "2024-01-02.org"; logPath ]} exampleClock 0
    (λ _, false) 0 [] [].

Definition exampleJoin (dir file : string) : string := dir +:+ "/" +:+ file.

(** What the daemon prints when Doom Emacs comes up, and when it does not. *)
Definition loadedStderr : string :=
  joinLines ["Loading init.el"; "> Doom loaded 312 packages in 1.2s"; "done"].
Definition quietStderr : string := joinLines ["Loading init.el"; "Doom loaded"].

(** The layout of a new note as the specification lists it: title line,
    to-do marker, the migrated lines or the placeholder, a blank line, the
    unfinished-work marker. *)
Definition layoutAsSpecified (date : string) (contentToMigrate : list string)
    : string :=
  joinLines (["#+TITLE: Daily Note " +:+ date; DestinationHeader]
             ++ todoLines contentToMigrate ++ [""; SourceHeader]).

(** The events of an attach phase in which no attempt succeeds. *)
Definition exhaustedAttach (cur prev : string) : list Event :=
  [EvSplitView prev cur; EvAttach cur false;
   EvSleep DaemonOpenRetryTime; EvSplitView prev cur; EvAttach cur false;
   EvSleep DaemonOpenRetryTime; EvSplitView prev cur; EvAttach cur false;
   EvSleep DaemonOpenRetryTime; EvSplitView prev cur; EvAttach cur false;
   EvSleep DaemonOpenRetryTime; EvSplitView prev cur; EvAttach cur false].

(** An event that leaves the files alone. *)
Definition notFileEvent (e : Event) : Prop :=
  match e with
  | EvCreate _ _ | EvWrite _ _ => False
  | _ => True
  end.

(** ** Further vocabulary for traces *)

Definition isSplitView (e : Event) : bool :=
  match e with
  | EvSplitView _ _ => true
  | _ => false
  end.

Definition isSleep (e : Event) : bool :=
  match e with
  | EvSleep _ => true
  | _ => false
  end.

Definition splitViews (tr : list Event) : nat :=
  length (List.filter isSplitView tr).
Definition sleeps (tr : list Event) : nat :=
  length (List.filter isSleep tr).

(** The events of one call of [openEmacs] that ends with [ok]. *)
Definition attemptEvents (cur prev : string) (ok : bool) : list Event :=
  [EvSplitView prev cur; EvAttach cur ok].

(** The events of the retry loop with [n] turns left, when [k] attempts
    have been made before and [att] tells which attempts succeed. *)
Fixpoint retryEvents (n : nat) (att : nat → bool) (k : nat)
    (cur prev : string) : list Event :=
  match n with
  | 0 => []
  | S n' =>
      EvSleep DaemonOpenRetryTime :: attemptEvents cur prev (att k)
      ++ (if att k then [] else retryEvents n' att (S k) cur prev)
  end.

(** The events of the whole attach phase. *)
Definition attachEvents (att : nat → bool) (k : nat) (cur prev : string)
    : list Event :=
  attemptEvents cur prev (att k)
  ++ (if att k then [] else retryEvents 4 att (S k) cur prev).

(** The index of the first successful attempt among attempts [k], [k+1],
    ..., [k+n-1], if there is one. *)
Fixpoint firstSuccess (n : nat) (att : nat → bool) (k : nat) : option nat :=
  match n with
  | 0 => None
  | S n' => if att k then Some 0 else S <$> firstSuccess n' att (S k)
  end.

(** Every event of the attach phase is a sleep of the fixed delay, a
    split-view request for the pair, or a client run on [cur]. *)
Definition attachEventFor (cur prev : string) (e : Event) : Prop :=
  e = EvSleep DaemonOpenRetryTime ∨ e = EvSplitView prev cur
  ∨ ∃ ok, e = EvAttach cur ok.


(** ** The update loop (main.go, lines 125-236 and 322-352) *)

Definition setCursor (c : Z) (m : model) : model :=
  mkModel (projects m) c (addingNew m) (selectedPath m) (width m) (height m)
    (daemonSpunUp m).

Definition setAddingNew (b : bool) (m : model) : model :=
  mkModel (projects m) (cursor m) b (selectedPath m) (width m) (height m)
    (daemonSpunUp m).

Definition setSelectedPath (s : string) (m : model) : model :=
  mkModel (projects m) (cursor m) (addingNew m) s (width m) (height m)
    (daemonSpunUp m).

Definition setSize (w h : Z) (m : model) : model :=
  mkModel (projects m) (cursor m) (addingNew m) (selectedPath m) w h
    (daemonSpunUp m).

Definition setDaemonSpunUp (b : bool) (m : model) : model :=
  mkModel (projects m) (cursor m) (addingNew m) (selectedPath m) (width m)
    (height m) b.

Definition setStarred (b : bool) (p : Project) : Project :=
  mkProject (Name p) (Path p) b (LastOpened p) (LastFileCreated p)
    (PreviousFileCreated p).

Definition setLastOpened (t : Z) (p : Project) : Project :=
  mkProject (Name p) (Path p) (Starred p) t (LastFileCreated p)
    (PreviousFileCreated p).

(** The order of [sortProjects] and [loadConfig] (lines 323-328 and
    372-377): starred projects first, then the more recently opened. *)
Definition projectLess (a b : Project) : bool :=
  if negb (Bool.eqb (Starred a) (Starred b)) then Starred a
  else (LastOpened b <? LastOpened a)%Z.

(** What [tea.KeyMsg] offers to [Update]: its type, as far as it is
    tested, and its [String()]. *)
Inductive KeyType := KeyEnter | KeyEsc | KeyOther.

(** The messages [Update] tells apart; [OtherMsg] is any other. *)
Inductive teaMsg :=
| OwnMsg (msg : Msg)
| WindowSizeMsg (Width Height : Z)
| KeyMsg (type : KeyType) (str : string)
| OtherMsg.

(** The commands [Update] and [Init] hand back. *)
Inductive Cmd :=
| CmdNil
| CmdQuit                                (* tea.Quit *)
| CmdSend (msg : Msg)                    (* a function returning [msg] *)
| CmdStartDaemon                         (* the closure of lines 139-150 *)
| CmdWorkflow (path : string) (m : model) (* the closure of lines 219-222 *)
| CmdTextInput.                          (* the text input's own command *)

(** The state [Update] works on: the model and the value of its text
    input. *)
Definition uiState : Type := model * string.

Section UpdateLoop.

(** [sort.Slice] with its less function on elements; [filepath.Abs] and
    [filepath.Base]; the instant of the [n]-th reading of the clock; the
    value of the text input after it has handled a key. *)
Variable sort_Slice : (Project → Project → bool) → list Project → list Project.
Variable filepath_Abs : string → option string.
Variable filepath_Base : string → string.
Variable instant : nat → Z.
Variable textinput_Update : string → KeyType → string → string.

(** [time.Now()] as an instant. *)
Definition time_Now_instant : Go Z := λ w,
  Done (instant (clockReads w)) (setClockReads (S (clockReads w)) w).

(** [sortProjects] (lines 322-334). *)
Definition sortProjects (m : model) : model :=
  let m := setProjects (sort_Slice projectLess (projects m)) m in
  if decide (Z.of_nat (length (projects m)) ≤ cursor m)%Z then setCursor 0 m
  else m.

(** [addProject] (lines 336-352). *)
Definition addProject (pathStr : string) (m : model) : Go model :=
  match filepath_Abs pathStr with
  | None => ret m
  | Some absPath =>
      let name := filepath_Base absPath in
      t <- time_Now_instant ;;
      let newProj := mkProject name absPath false t "" "" in
      let m := setProjects (projects m ++ [newProj]) m in
      let m := sortProjects m in
      do saveConfig (projects m) ;;
      ret m
  end.

(** [Init] (lines 125-130). *)
Definition Init : Cmd := CmdSend StartDaemonMsg.

(** [slices.Delete(s, i, i+1)]: a range out of bounds panics. *)
Definition slices_Delete1 (s : list Project) (i : Z) : Go (list Project) :=
  λ w,
    if decide (0 ≤ i ∧ i + 1 ≤ Z.of_nat (length s))%Z
    then Done (take (Z.to_nat i) s ++ drop (S (Z.to_nat i)) s) w
    else Panicked w.

(** [Update] (lines 133-236). *)
Definition Update (msg : teaMsg) (st : uiState) : Go (uiState * Cmd) :=
  let '(m, input) := st in
  match msg with
  | OwnMsg StartDaemonMsg => ret (m, input, CmdStartDaemon)
  | OwnMsg DaemonReadyMsg => ret (setDaemonSpunUp true m, input, CmdNil)
  | WindowSizeMsg w h => ret (setSize w h m, input, CmdNil)
  | OtherMsg => ret (m, input, CmdNil)
  | KeyMsg type str =>
      if addingNew m then
        match type with
        | KeyEnter =>
            let path := input in
            if decide (path ≠ "") then
              m <- addProject path m ;;
              ret (setAddingNew false m, "", CmdNil)
            else ret (m, input, CmdNil)
        | KeyEsc => ret (setAddingNew false m, "", CmdNil)
        | KeyOther =>
            ret (m, textinput_Update input type str, CmdTextInput)
        end
      else if decide (str = "ctrl+c" ∨ str = "q") then ret (m, input, CmdQuit)
      else if decide (str = "up" ∨ str = "k") then
        ret (if decide (0 < cursor m)%Z then setCursor (cursor m - 1) m else m,
             input, CmdNil)
      else if decide (str = "down" ∨ str = "j") then
        ret (if decide (cursor m < Z.of_nat (length (projects m)) - 1)%Z
             then setCursor (cursor m + 1) m else m,
             input, CmdNil)
      else if decide (str = "a") then ret (setAddingNew true m, input, CmdNil)
      else if decide (str = "d" ∨ str = "x") then
        if decide (0 < length (projects m)) then
          ps <- slices_Delete1 (projects m) (cursor m) ;;
          let m := setProjects ps m in
          let m :=
            if decide (Z.of_nat (length (projects m)) ≤ cursor m
                       ∧ 0 < cursor m)%Z
            then setCursor (cursor m - 1) m else m in
          do saveConfig (projects m) ;;
          ret (m, input, CmdNil)
        else ret (m, input, CmdNil)
      else if decide (str = "s") then
        if decide (0 < length (projects m)) then
          p <- currentProject m ;;
          m <- assignCurrent (setStarred (negb (Starred p))) m ;;
          let m := sortProjects m in
          do saveConfig (projects m) ;;
          ret (m, input, CmdNil)
        else ret (m, input, CmdNil)
      else if decide (str = "enter") then
        if decide (0 < length (projects m)) then
          t <- time_Now_instant ;;
          m <- assignCurrent (setLastOpened t) m ;;
          p <- currentProject m ;;
          let m := setSelectedPath (Path p) m in
          if decide (selectedPath m ≠ "") then
            ret (m, input, CmdWorkflow (selectedPath m) m)
          else
            let m := sortProjects m in
            do saveConfig (projects m) ;;
            ret (m, input, CmdNil)
        else ret (m, input, CmdNil)
      else if decide (str = "t") then ret (m, input, CmdSend StartDaemonMsg)
      else ret (m, input, CmdNil)
  end.

(** [filepath.Join] for the workflow command. *)
Variable filepath_Join : string → string → string.

(** Running a command to its message.  The workflow writes through the
    pointer to the model it captured, whose project entries are the ones
    the program's model shares; the model it leaves is returned with the
    message.  [stderr] is what the daemon prints. *)
Definition runCmd (stderr : string) (c : Cmd) (m : model)
    : Go (model * option Msg) :=
  match c with
  | CmdNil | CmdQuit | CmdTextInput => ret (m, None)
  | CmdSend msg => ret (m, Some msg)
  | CmdStartDaemon =>
      r <- startDaemonCmd stderr ;;
      ret (m, r)
  | CmdWorkflow path m0 =>
      m1 <- runDailyWorkflow filepath_Join path m0 ;;
      ret (setProjects (projects m1) m, Some DaemonReadyMsg)
  end.

End UpdateLoop.

(** The cursor is on a project, or at 0 on an empty list. *)
Definition cursorOK (m : model) : Prop :=
  (0 ≤ cursor m)%Z
  ∧ (cursor m < Z.of_nat (length (projects m)) ∨ cursor m = 0)%Z.

(** Insertion sort, one way for [sort.Slice] to meet its contract. *)
Fixpoint insertBy (less : Project → Project → bool) (x : Project)
    (l : list Project) : list Project :=
  match l with
  | [] => [x]
  | y :: l' => if less x y then x :: y :: l' else y :: insertBy less x l'
  end.

Definition insertionSort (less : Project → Project → bool)
    (l : list Project) : list Project :=
  foldr (insertBy less) [] l.

(** What [sort.Slice] promises for a less function that is a strict weak
    order: the same elements, none of them before one it is less than. *)
Definition sortContract
    (sort_Slice : (Project → Project → bool) → list Project → list Project)
    : Prop :=
  ∀ less : Project → Project → bool,
    (∀ a b, less a b = true → less b a = false) →
    (∀ a b c, less b a = false → less c b = false → less c a = false) →
    ∀ l, sort_Slice less l ≡ₚ l
         ∧ ∀ i j a b, i < j → sort_Slice less l !! i = Some a →
                      sort_Slice less l !! j = Some b → less b a = false.

(** [ordered less l]: no element of [l] comes before one it is less
    than. *)
Fixpoint ordered (less : Project → Project → bool) (l : list Project) : Prop :=
  match l with
  | [] => True
  | a :: l' => Forall (λ b, less b a = false) l' ∧ ordered less l'
  end.

(** ** Lines that survive being written and scanned again *)

(** The line holds no line feed. *)
Fixpoint noLF (s : string) : bool :=
  match s with
  | "" => true
  | String c s' => if decide (c = LF) then false else noLF s'
  end.

(** A line that a scanner reads back whole when it is written out
    followed by a line feed: no line feed in it, and short enough for the
    scanner's buffer. *)
Definition writable (line : string) : Prop :=
  noLF line = true ∧ fitsBuffer line = true.

(** A line of [MaxScanTokenSize] bytes, one more than the scanner's buffer
    takes. *)
Definition overlongLine : string :=
  String.string_of_list_ascii (replicate (N.to_nat MaxScanTokenSize) "."%char).

(** The example world a day later: today's note as [createDailyNote] wrote
    it, with two lines added at its end. *)
Definition editedWorld : World :=
  setFs (<["2024-01-02.org" :=
             File true (noteText "2024-01-02" ["- task1"; "- task2"]
                        +:+ joinLines ["- call the bank"; "  - again"])]>
           (fs exampleWorld)) exampleWorld.

(** * Properties *)

Global Arguments strings_HasPrefix : simpl never.
Global Arguments strings_Contains : simpl never.
Global Arguments strings_TrimSpace : simpl never.
Global Arguments scanLines : simpl never.
Global Arguments Format : simpl never.

(** ** Strings and the text of a note *)

Lemma append_cons (x : ascii) (a b : string) :
  String x a +:+ b = String x (a +:+ b).
Proof. reflexivity. Qed.

Lemma append_assoc (a b c : string) : (a +:+ b) +:+ c = a +:+ (b +:+ c).
Proof.
  induction a as [|x a IH]; [done|]. rewrite !append_cons. by rewrite IH.
Qed.

Lemma append_empty_r (a : string) : a +:+ "" = a.
Proof.
  induction a as [|x a IH]; [done|]. rewrite append_cons. by rewrite IH.
Qed.

(** The text written, line by line. *)
Lemma joinLines_cons l ls : joinLines (l :: ls) = l +:+ nl +:+ joinLines ls.
Proof. reflexivity. Qed.

Lemma joinLines_app ls1 ls2 :
  joinLines (ls1 ++ ls2) = joinLines ls1 +:+ joinLines ls2.
Proof.
  induction ls1 as [|l ls1 IH]; [done|].
  rewrite <- app_comm_cons, !joinLines_cons, IH. by rewrite !append_assoc.
Qed.

Lemma foldl_WriteString buf ls :
  foldl (λ b line, WriteString b (line +:+ nl)) buf ls = buf +:+ joinLines ls.
Proof.
  revert buf. induction ls as [|l ls IH]; intros buf.
  - cbn. by rewrite append_empty_r.
  - rewrite joinLines_cons. cbn [foldl]. rewrite IH. unfold WriteString.
    by rewrite !append_assoc.
Qed.

Lemma noteText_lines date ls :
  noteText date ls
  = joinLines (["#+TITLE: Daily Note " +:+ date; ""; DestinationHeader]
               ++ todoLines ls ++ [""; SourceHeader]).
Proof.
  rewrite !joinLines_app, !joinLines_cons.
  unfold noteText, WriteString. destruct ls as [|l ls].
  - rewrite decide_False by (cbn; lia). cbn [todoLines].
    rewrite !joinLines_cons. change (joinLines []) with "".
    rewrite !append_assoc, ?append_empty_r. reflexivity.
  - rewrite decide_True by (cbn; lia). rewrite foldl_WriteString.
    cbn [todoLines]. change (joinLines []) with "".
    rewrite !append_assoc, ?append_empty_r. reflexivity.
Qed.

Lemma Format_shape t :
  year t < 10 ^ 4 → month t < 10 ^ 2 → day t < 10 ^ 2 →
  Format t
  = lowDigits 4 (year t) +:+ "-" +:+ lowDigits 2 (month t) +:+ "-"
      +:+ lowDigits 2 (day t)
  ∧ String.length (Format t) = 10.
Proof.
  intros Hy Hm Hd.
  assert (∀ n, highDigits n 0 = "") as Hz by (by intros [|n]).
  unfold Format, appendInt.
  rewrite (Nat.div_small (year t)), (Nat.div_small (month t)),
    (Nat.div_small (day t)), !Hz by done.
  split; [done|]. reflexivity.
Qed.

(** ** The section extractor *)

Section Extractor.

Variable marker : string.

Lemma scanLoop_marker capture lines line texts :
  strings_TrimSpace line = marker →
  scanLoop marker capture lines (line :: texts)
  = scanLoop marker true lines texts.
Proof. intros H. simpl. by rewrite decide_True. Qed.

Lemma scanLoop_header lines line texts :
  strings_TrimSpace line ≠ marker → isTopLevel line = true →
  scanLoop marker true lines (line :: texts) = lines.
Proof.
  intros H1 H2. simpl. rewrite decide_False by done.
  unfold isTopLevel in H2. by rewrite H2.
Qed.

Lemma scanLoop_plain lines line texts :
  strings_TrimSpace line ≠ marker → isTopLevel line = false →
  scanLoop marker true lines (line :: texts)
  = scanLoop marker true (lines ++ [line]) texts.
Proof.
  intros H1 H2. simpl. rewrite decide_False by done.
  unfold isTopLevel in H2. by rewrite H2.
Qed.

Lemma scanLoop_skip lines line texts :
  strings_TrimSpace line ≠ marker →
  scanLoop marker false lines (line :: texts)
  = scanLoop marker false lines texts.
Proof. intros H. simpl. by rewrite decide_False. Qed.

(** While capturing, the loop appends to what it already has. *)
Lemma scanLoop_capturing lines texts :
  scanLoop marker true lines texts
  = lines ++ List.filter (λ l, negb (isMarker marker l))
               (takeWhile (λ l, isMarker marker l || negb (isTopLevel l)) texts).
Proof.
  revert lines. induction texts as [|line texts IH]; intros lines.
  - simpl. by rewrite app_nil_r.
  - cbn [takeWhile]. unfold isMarker at 2.
    destruct (decide (strings_TrimSpace line = marker)) as [Hm|Hm].
    + rewrite scanLoop_marker, IH by done.
      rewrite (bool_decide_eq_true_2 _ Hm). cbn [orb List.filter].
      unfold isMarker at 3. by rewrite (bool_decide_eq_true_2 _ Hm).
    + rewrite (bool_decide_eq_false_2 _ Hm). cbn [orb].
      destruct (isTopLevel line) eqn:Ht; cbn [negb List.filter].
      * rewrite scanLoop_header by done. by rewrite app_nil_r.
      * rewrite scanLoop_plain, IH by done.
        unfold isMarker at 3. rewrite (bool_decide_eq_false_2 _ Hm).
        cbn [negb]. by rewrite <- app_assoc.
Qed.

(** Before the marker is met nothing is kept. *)
Lemma scanLoop_searching texts :
  scanLoop marker false [] texts
  = scanLoop marker true [] (afterFirst (isMarker marker) texts).
Proof.
  induction texts as [|line texts IH]; [done|].
  unfold isMarker. simpl afterFirst.
  destruct (decide (strings_TrimSpace line = marker)) as [Hm|Hm].
  - rewrite scanLoop_marker by done. by rewrite (bool_decide_eq_true_2 _ Hm).
  - rewrite scanLoop_skip by done. by rewrite (bool_decide_eq_false_2 _ Hm).
Qed.

Lemma scanLoop_section texts :
  scanLoop marker false [] texts = sectionAsScanned marker texts.
Proof. by rewrite scanLoop_searching, scanLoop_capturing. Qed.

Lemma afterFirst_none (p : string → bool) texts :
  Forall (λ l, p l = false) texts → afterFirst p texts = [].
Proof.
  induction 1 as [|l ls Hl _ IH]; [done|]. simpl. by rewrite Hl.
Qed.

Lemma afterFirst_app (p : string → bool) pre l texts :
  Forall (λ l, p l = false) pre → p l = true →
  afterFirst p (pre ++ l :: texts) = texts.
Proof.
  induction 1 as [|x xs Hx _ IH]; intros Hl; simpl.
  - by rewrite Hl.
  - rewrite Hx. by apply IH.
Qed.

Lemma not_marker_false ls :
  Forall (λ l, strings_TrimSpace l ≠ marker) ls →
  Forall (λ l, isMarker marker l = false) ls.
Proof.
  intros H. eapply Forall_impl; [exact H|].
  intros l Hl. by apply bool_decide_eq_false_2.
Qed.

Lemma sectionAsScanned_plain texts :
  Forall (λ l, strings_TrimSpace l ≠ marker) (afterFirst (isMarker marker) texts) →
  sectionAsScanned marker texts = sectionAsSpecified marker texts.
Proof.
  unfold sectionAsScanned, sectionAsSpecified.
  induction 1 as [|l ls Hl _ IH]; [done|].
  cbn [takeWhile]. unfold isMarker at 2. rewrite (bool_decide_eq_false_2 _ Hl).
  cbn [orb]. destruct (isTopLevel l); cbn [negb List.filter]; [done|].
  unfold isMarker at 1. rewrite (bool_decide_eq_false_2 _ Hl). cbn [negb].
  by rewrite IH.
Qed.

(** Capture runs through marker sections that follow one another. *)
Lemma scanLoop_sections secs : ∀ lines rest,
  Forall (λ s : string * list string,
            strings_TrimSpace s.1 = marker
            ∧ Forall (λ l, strings_TrimSpace l ≠ marker ∧ isTopLevel l = false) s.2)
         secs →
  scanLoop marker true lines (concat ((λ s, s.1 :: s.2) <$> secs) ++ rest)
  = scanLoop marker true (lines ++ concat (snd <$> secs)) rest.
Proof.
  induction secs as [|[mk body] secs IH]; intros lines rest Hsecs.
  - cbn. by rewrite app_nil_r.
  - apply Forall_cons in Hsecs as [[Hmk Hbody] Hsecs]. cbn in Hmk, Hbody.
    cbn [fmap list_fmap concat fst snd]. rewrite <- !app_comm_cons.
    rewrite scanLoop_marker by done.
    rewrite <- (app_assoc body). rewrite (app_assoc lines body).
    clear Hmk. revert lines. induction Hbody as [|l ls [Hl Ht] _ IHb];
      intros lines.
    + cbn [app]. rewrite app_nil_r. by apply IH.
    + rewrite <- app_comm_cons. rewrite scanLoop_plain by done.
      rewrite IHb. do 2 f_equal. by rewrite <- app_assoc.
Qed.

End Extractor.

Lemma os_Open_readable w path :
  ¬ readableFile w path →
  os_Open w path = None ∨ os_Open w path = Some Dir.
Proof.
  intros Hnr. unfold os_Open.
  destruct (fs w !! path) as [[[|] c|]|] eqn:Hfs; auto.
  destruct Hnr. by exists c.
Qed.

(** ** The note materializer *)

Lemma statOk_true w path : statOk w path = true ↔ is_Some (fs w !! path).
Proof. unfold statOk. apply bool_decide_eq_true. Qed.

Lemma statOk_false w path : statOk w path = false ↔ fs w !! path = None.
Proof.
  unfold statOk. rewrite bool_decide_eq_false. symmetry.
  apply eq_None_not_Some.
Qed.

Lemma currentProject_ok m p w :
  (0 ≤ cursor m)%Z → projects m !! Z.to_nat (cursor m) = Some p →
  currentProject m w = Done p w.
Proof.
  intros H0 Hp. unfold currentProject. rewrite decide_True by done.
  by rewrite Hp.
Qed.

Lemma cursorInRange_lookup m :
  cursorInRange m ↔
  (0 ≤ cursor m)%Z ∧ ∃ p, projects m !! Z.to_nat (cursor m) = Some p.
Proof.
  unfold cursorInRange. split; intros [H0 H]; split; try done.
  - by apply lookup_lt_is_Some_2.
  - by apply lookup_lt_is_Some_1.
Qed.

(** The reference note is only read: whatever it holds, the call starts
    with the existence check on today's file. *)
Lemma createDailyNote_unfold today yest m w :
  createDailyNote today yest m w
  = if statOk w today then Done m w
    else
      (created <- os_Create today ;;
       if negb created then ret m
       else
         t <- time_Now ;;
         do writeAll today (noteText (Format t) (migrated w yest)) ;;
         p <- currentProject m ;;
         m <- assignCurrent (setPreviousFileCreated (LastFileCreated p)) m ;;
         m <- assignCurrent (setLastFileCreated today) m ;;
         do saveConfig (projects m) ;;
         ret m) w.
Proof.
  unfold createDailyNote, migrated, bind at 1 2 3, os_Stat, look.
  destruct (statOk w yest); cbn; by destruct (statOk w today).
Qed.

Lemma createDailyNote_new today yest m w p :
  fs w !! today = None → today ∉ denied w →
  (0 ≤ cursor m)%Z → projects m !! Z.to_nat (cursor m) = Some p →
  let text := noteText (Format (now w (clockReads w))) (migrated w yest) in
  let m' :=
    setProjects (<[Z.to_nat (cursor m) := shiftLinkage today p]> (projects m)) m in
  ∃ w',
    createDailyNote today yest m w = Done m' w'
    ∧ fs w' = <[today := File true text]> (fs w)
    ∧ trace w' = trace w ++ [EvCreate today true; EvWrite today text;
                             EvSaveConfig (projects m')]
    ∧ denied w' = denied w ∧ attachable w' = attachable w
    ∧ attempts w' = attempts w ∧ chans w' = chans w.
Proof.
  intros Hnone Hden H0 Hp text m'.
  rewrite createDailyNote_unfold.
  rewrite (proj2 (statOk_false w today) Hnone).
  unfold bind at 1, os_Create. rewrite decide_False by done. rewrite Hnone.
  cbn [negb]. unfold bind at 1, time_Now. unfold bind at 1, writeAll.
  cbn [fs setFs setClockReads logEvent now clockReads].
  unfold bind at 1. erewrite currentProject_ok by (cbn; done).
  unfold assignCurrent at 1. unfold bind at 1 2.
  erewrite currentProject_ok by (cbn; done).
  unfold ret at 1. unfold assignCurrent, bind at 1 2.
  erewrite currentProject_ok; [| by cbn | cbn; apply list_lookup_insert_eq;
    by eapply lookup_lt_Some ].
  unfold ret at 1. unfold bind, saveConfig, emit, ret.
  cbn. rewrite list_insert_insert_eq. rewrite insert_insert_eq.
  eexists. split; [reflexivity|]. cbn.
  rewrite <- !app_assoc. by repeat split.
Qed.

(** Whatever the cursor, once the file could be created it holds the
    generated text: the linkage update comes after the write. *)
Lemma createDailyNote_written today yest m w :
  fs w !! today = None → today ∉ denied w →
  fs (worldOf (createDailyNote today yest m w))
  = <[today := File true
        (noteText (Format (now w (clockReads w))) (migrated w yest))]> (fs w).
Proof.
  intros Hnone Hden.
  destruct (decide (0 ≤ cursor m)%Z) as [H0|H0];
    [destruct (projects m !! Z.to_nat (cursor m)) as [p|] eqn:Hp|].
  - destruct (createDailyNote_new today yest m w p Hnone Hden H0 Hp)
      as (w' & -> & Hfs & _). done.
  - rewrite createDailyNote_unfold.
    rewrite (proj2 (statOk_false w today) Hnone).
    unfold bind at 1, os_Create. rewrite decide_False by done. rewrite Hnone.
    cbn [negb]. unfold bind at 1, time_Now. unfold bind at 1, writeAll.
    unfold bind at 1, currentProject. cbn [cursor projects].
    rewrite decide_True by done. rewrite Hp. cbn.
    by rewrite insert_insert_eq.
  - rewrite createDailyNote_unfold.
    rewrite (proj2 (statOk_false w today) Hnone).
    unfold bind at 1, os_Create. rewrite decide_False by done. rewrite Hnone.
    cbn [negb]. unfold bind at 1, time_Now. unfold bind at 1, writeAll.
    unfold bind at 1, currentProject. cbn [cursor projects].
    rewrite decide_False by done. cbn.
    by rewrite insert_insert_eq.
Qed.

Lemma createDailyNote_denied today yest m w :
  fs w !! today = None → today ∈ denied w →
  createDailyNote today yest m w = Done m (logEvent (EvCreate today false) w).
Proof.
  intros Hnone Hden. rewrite createDailyNote_unfold.
  rewrite (proj2 (statOk_false w today) Hnone).
  unfold bind, os_Create. by rewrite decide_True.
Qed.

Lemma createDailyNote_exists today yest m w :
  is_Some (fs w !! today) → createDailyNote today yest m w = Done m w.
Proof.
  intros Hsome. rewrite createDailyNote_unfold.
  by rewrite (proj2 (statOk_true w today) Hsome).
Qed.

Lemma fileWrites_three today text ps :
  fileWrites today [EvCreate today true; EvWrite today text; EvSaveConfig ps] = 1.
Proof. unfold fileWrites. cbn. by rewrite bool_decide_eq_true_2. Qed.

Lemma creations_three today text ps :
  creations today [EvCreate today true; EvWrite today text; EvSaveConfig ps] = 1.
Proof. unfold creations. cbn. by rewrite bool_decide_eq_true_2. Qed.

(** [createDailyNote] returns for every file system when the cursor is in
    range; it never touches the back end and adds no attach attempt. *)
Lemma createDailyNote_returns today yest m w :
  cursorInRange m →
  ∃ m' w' evs,
    createDailyNote today yest m w = Done m' w'
    ∧ trace w' = trace w ++ evs ∧ attachAttempts evs = 0
    ∧ Forall (λ e, ∀ n, e ≠ EvSleep n) evs
    ∧ creations today evs ≤ 1
    ∧ attachable w' = attachable w
    ∧ cursor m' = cursor m ∧ length (projects m') = length (projects m).
Proof.
  intros Hc. apply cursorInRange_lookup in Hc as (H0 & p & Hp).
  destruct (fs w !! today) as [n|] eqn:Hfs.
  - exists m, w, []. rewrite createDailyNote_exists by (by rewrite Hfs).
    rewrite app_nil_r. repeat split; try done. cbn; lia.
  - destruct (decide (today ∈ denied w)) as [Hden|Hden].
    + exists m, (logEvent (EvCreate today false) w), [EvCreate today false].
      rewrite createDailyNote_denied by done.
      repeat split; try done.
      * repeat constructor. done.
      * unfold creations. cbn. by rewrite bool_decide_eq_true_2.
    + destruct (createDailyNote_new today yest m w p Hfs Hden H0 Hp)
        as (w' & -> & _ & Htr & _ & Hatt & _).
      eexists _, w', _. split; [done|]. split; [exact Htr|].
      repeat split; try done.
      * repeat constructor; done.
      * by rewrite creations_three.
      * cbn. by rewrite length_insert.
Qed.

(** ** The attach phase and the workflow *)

Lemma filter_notFileEvent path evs :
  Forall notFileEvent evs →
  creations path evs = 0 ∧ fileWrites path evs = 0.
Proof.
  unfold creations, fileWrites.
  induction 1 as [|e evs He _ [IH1 IH2]]; [done|].
  destruct e; try done.
Qed.

Lemma openEmacs_run cur prev w :
  openEmacs cur prev w
  = Done (attachable w (attempts w))
      (logEvent (EvAttach cur (attachable w (attempts w)))
         (setAttempts (S (attempts w)) (logEvent (EvSplitView prev cur) w))).
Proof. reflexivity. Qed.

Lemma openEmacs_fails cur prev w :
  attachable w (attempts w) = false →
  ∃ w', openEmacs cur prev w = Done false w'
    ∧ trace w' = trace w ++ failedAttempt cur prev
    ∧ attachable w' = attachable w ∧ fs w' = fs w ∧ denied w' = denied w.
Proof.
  intros Hf. rewrite openEmacs_run, Hf.
  eexists. split; [reflexivity|]. cbn. by rewrite <- app_assoc.
Qed.

Section AttachPhase.

(** The model has its cursor on project [p]. *)
Variables (m : model) (p : Project).
Hypothesis cursor_nonneg : (0 ≤ cursor m)%Z.
Hypothesis cursor_on : projects m !! Z.to_nat (cursor m) = Some p.

Let cur := LastFileCreated p.
Let prev := PreviousFileCreated p.

(** One turn of the retry loop. *)
Lemma retryLoop_turn n w :
  retryLoop (S n) false m w
  = (emacsHasOpened <- openEmacs cur prev ;; retryLoop n emacsHasOpened m)
      (logEvent (EvSleep DaemonOpenRetryTime) w).
Proof.
  cbn [retryLoop]. unfold bind at 1, time_Sleep, emit. unfold bind at 1.
  by erewrite currentProject_ok.
Qed.

Lemma attachPhase_unfold w :
  attachPhase m w
  = (emacsHasOpened <- openEmacs cur prev ;; retryLoop 4 emacsHasOpened m) w.
Proof. unfold attachPhase. unfold bind at 1. by erewrite currentProject_ok. Qed.

(** While no attempt succeeds the loop runs its full count. *)
Lemma retryLoop_never n :
  ∀ w, (∀ k, attachable w k = false) →
  ∃ w', retryLoop n false m w = Done false w'
    ∧ trace w' = trace w ++ failedRetries n cur prev
    ∧ attachable w' = attachable w ∧ fs w' = fs w ∧ denied w' = denied w.
Proof.
  induction n as [|n IH]; intros w Hnever.
  - exists w. cbn. by rewrite app_nil_r.
  - rewrite retryLoop_turn. unfold bind.
    destruct (openEmacs_fails cur prev (logEvent (EvSleep DaemonOpenRetryTime) w))
      as (w1 & -> & Htr & Hatt & Hfs & Hden); [apply Hnever|].
    destruct (IH w1) as (w2 & -> & Htr2 & Hatt2 & Hfs2 & Hden2).
    { intros k. rewrite Hatt. apply Hnever. }
    exists w2. split; [done|]. rewrite Htr2, Htr, Hatt2, Hatt, Hfs2, Hfs,
      Hden2, Hden. cbn. unfold failedRetries. cbn.
    rewrite <- !app_assoc. by repeat split.
Qed.

Lemma attachPhase_never w :
  (∀ k, attachable w k = false) →
  ∃ w', attachPhase m w = Done false w'
    ∧ trace w' = trace w ++ failedAttempt cur prev ++ failedRetries 4 cur prev
    ∧ fs w' = fs w.
Proof.
  intros Hnever. rewrite attachPhase_unfold. unfold bind.
  destruct (openEmacs_fails cur prev w)
    as (w1 & -> & Htr & Hatt & Hfs & Hden); [apply Hnever|].
  destruct (retryLoop_never 4 w1) as (w2 & -> & Htr2 & _ & Hfs2 & _).
  { intros k. rewrite Hatt. apply Hnever. }
  exists w2. split; [done|]. rewrite Htr2, Htr, Hfs2, Hfs.
  by rewrite <- app_assoc.
Qed.

(** Whatever the back end does, the loop returns and touches no file. *)
Lemma retryLoop_trace n :
  ∀ b w, ∃ b' w' evs,
    retryLoop n b m w = Done b' w'
    ∧ trace w' = trace w ++ evs ∧ Forall notFileEvent evs ∧ fs w' = fs w.
Proof.
  induction n as [|n IH]; intros b w.
  { exists b, w, []. by rewrite app_nil_r. }
  destruct b.
  { exists true, w, []. by rewrite app_nil_r. }
  rewrite retryLoop_turn. unfold bind. rewrite openEmacs_run.
  match goal with |- context [retryLoop n ?b m ?w1] =>
    destruct (IH b w1) as (b' & w' & evs & -> & Htr & Hev & Hfs)
  end.
  eexists b', w', (_ :: _ :: _ :: evs). split; [done|].
  split; [|split].
  - rewrite Htr. cbn. rewrite <- !app_assoc. reflexivity.
  - by repeat constructor.
  - by rewrite Hfs.
Qed.

Lemma attachPhase_trace w :
  ∃ b' w' evs,
    attachPhase m w = Done b' w'
    ∧ trace w' = trace w ++ evs ∧ Forall notFileEvent evs ∧ fs w' = fs w.
Proof.
  rewrite attachPhase_unfold. unfold bind. rewrite openEmacs_run.
  match goal with |- context [retryLoop 4 ?b m ?w1] =>
    destruct (retryLoop_trace 4 b w1) as (b' & w' & evs & -> & Htr & Hev & Hfs)
  end.
  eexists b', w', (_ :: _ :: evs). split; [done|]. split; [|split].
  - rewrite Htr. cbn. rewrite <- !app_assoc. reflexivity.
  - by repeat constructor.
  - by rewrite Hfs.
Qed.

(** Past the check of the project directory, the workflow is the
    materializer followed by the attach phase. *)
Lemma runDailyWorkflow_unfold join projectPath w :
  statOk w projectPath = true →
  let t := now w (clockReads w) in
  let yesterdayPath :=
    if decide (0 < String.length cur) then cur
    else join projectPath (Format (previousDay t) +:+ FileExtension) in
  runDailyWorkflow join projectPath m w
  = (m' <- createDailyNote (join projectPath (Format t +:+ FileExtension))
             yesterdayPath m ;;
     do attachPhase m' ;;
     ret m') (setClockReads (S (clockReads w)) w).
Proof.
  intros Hroot t yesterdayPath.
  unfold runDailyWorkflow. unfold bind at 1, os_Stat, look. rewrite Hroot.
  cbn [negb]. unfold bind at 1, time_Now. unfold bind at 1.
  by erewrite currentProject_ok.
Qed.

End AttachPhase.

Lemma runDailyWorkflow_never join projectPath m w :
  statOk w projectPath = true → cursorInRange m →
  (∀ k, attachable w k = false) →
  ∃ m' w' evs cur prev,
    runDailyWorkflow join projectPath m w = Done m' w'
    ∧ trace w' = trace w ++ evs ++ failedAttempt cur prev
                   ++ failedRetries 4 cur prev
    ∧ attachAttempts evs = 0 ∧ Forall (λ e, ∀ n, e ≠ EvSleep n) evs.
Proof.
  intros Hroot Hc Hnever. pose proof Hc as Hc'.
  apply cursorInRange_lookup in Hc' as (H0 & p & Hp).
  rewrite (runDailyWorkflow_unfold m p H0 Hp) by done. unfold bind at 1.
  match goal with |- context [createDailyNote ?t ?y m ?w1] =>
    destruct (createDailyNote_returns t y m w1 Hc)
      as (m' & w' & evs & -> & Htr & Hatt & Hsl & _ & Hab & Hcur & Hlen)
  end.
  assert (cursorInRange m') as Hc2.
  { destruct Hc as [? ?]. split; rewrite Hcur; [done | by rewrite Hlen]. }
  apply cursorInRange_lookup in Hc2 as (H0' & p' & Hp').
  destruct (attachPhase_never m' p' H0' Hp' w') as (w2 & Hrun & Htr2 & _).
  { intros k. rewrite Hab. apply Hnever. }
  unfold bind. rewrite Hrun.
  exists m', w2, evs, (LastFileCreated p'), (PreviousFileCreated p').
  split; [done|]. rewrite Htr2, Htr. cbn. by rewrite <- !app_assoc.
Qed.

(** The workflow returns for every file system and back end. *)
Lemma runDailyWorkflow_returns join projectPath m w :
  cursorInRange m → ∃ m' w', runDailyWorkflow join projectPath m w = Done m' w'.
Proof.
  intros Hc. pose proof Hc as Hc'.
  apply cursorInRange_lookup in Hc' as (H0 & p & Hp).
  destruct (statOk w projectPath) eqn:Hroot.
  - rewrite (runDailyWorkflow_unfold m p H0 Hp) by done. unfold bind at 1.
    match goal with |- context [createDailyNote ?t ?y m ?w1] =>
      destruct (createDailyNote_returns t y m w1 Hc)
        as (m' & w' & evs & -> & _ & _ & _ & _ & _ & Hcur & Hlen)
    end.
    assert (cursorInRange m') as Hc2.
    { destruct Hc as [? ?]. split; rewrite Hcur; [done | by rewrite Hlen]. }
    apply cursorInRange_lookup in Hc2 as (H0' & p' & Hp').
    destruct (attachPhase_trace m' p' H0' Hp' w') as (b' & w2 & _ & Hrun & _).
    unfold bind. rewrite Hrun. by eexists _, _.
  - unfold runDailyWorkflow, bind, os_Stat, look. rewrite Hroot.
    by eexists _, _.
Qed.

(** ** The back-end monitor *)

Lemma matchCount_pos texts :
  0 < matchCount texts ↔ ∃ line, line ∈ texts ∧ matches line = true.
Proof.
  unfold matchCount. induction texts as [|l ls IH]; cbn.
  - split; [lia|]. intros (line & Hin & _). by apply elem_of_nil in Hin.
  - destruct (matches l) eqn:Hm; cbn.
    + split; [|lia]. intros _. exists l. split; [left | done].
    + rewrite IH. split.
      * intros (line & Hin & Hl). exists line. split; [by right | done].
      * intros (line & Hin & Hl). apply elem_of_cons in Hin as [->|Hin].
        -- congruence.
        -- by exists line.
Qed.

Lemma matchCount_zero texts :
  matchCount texts = 0 ↔ ∀ line, line ∈ texts → matches line = false.
Proof.
  split.
  - intros H0 line Hin. destruct (matches line) eqn:Hm; [|done].
    assert (0 < matchCount texts) by (apply matchCount_pos; eauto). lia.
  - intros Hall. destruct (matchCount texts) eqn:Hk; [done|].
    assert (0 < matchCount texts) as Hpos by lia.
    apply matchCount_pos in Hpos as (line & Hin & Hm).
    rewrite (Hall line Hin) in Hm. done.
Qed.

(** The monitor tries one send per matching line; it gets through them
    all when there are receivers enough, and blocks at the first send that
    nobody receives. *)
Lemma monitorLoop_sends texts : ∀ w ch r got,
  chans w !! ch = Some (mkChan r got) →
  let k := matchCount texts in
  let w' := setChans
              (<[ch := mkChan (r - k) (got ++ replicate (min r k) SuccessMsg)]>
                 (chans w)) w in
  monitorLoop texts ch w = if decide (k ≤ r) then Done tt w' else Blocked w'.
Proof.
  induction texts as [|line texts IH]; intros w ch r got Hch.
  - cbn. rewrite Nat.sub_0_r, Nat.min_0_r, app_nil_r.
    rewrite list_insert_id by done. by destruct w.
  - cbn [monitorLoop]. unfold matchCount. cbn [List.filter].
    fold (matches line). destruct (matches line) eqn:Hm.
    + cbn [length]. fold (matchCount texts).
      unfold bind, send. rewrite Hch. destruct r as [|r].
      * rewrite decide_False by lia. cbn.
        rewrite app_nil_r, list_insert_id by done. by destruct w.
      * erewrite IH by (cbn; apply list_lookup_insert_eq;
                          by eapply lookup_lt_Some).
        cbn. rewrite list_insert_insert_eq, <- app_assoc.
        destruct (decide (matchCount texts ≤ r));
          [rewrite decide_True by lia | rewrite decide_False by lia]; done.
    + fold (matchCount texts). by apply IH.
Qed.

Lemma os_Create_ok path w :
  path ∉ denied w → fs w !! path ≠ Some Dir →
  os_Create path w
  = Done true (logEvent (EvCreate path true)
                 (setFs (<[path := File true ""]> (fs w)) w)).
Proof.
  intros Hden Hdir. unfold os_Create. rewrite decide_False by done.
  destruct (fs w !! path) as [[| ]|]; done.
Qed.

Lemma runEmacsDaemon_sends stderr w ch r got :
  logCreatable w → chans w !! ch = Some (mkChan r got) →
  let k := matchCount (scanLines stderr) in
  let cs := <[ch := mkChan (r - k) (got ++ replicate (min r k) SuccessMsg)]>
              (chans w) in
  ∃ w', chans w' = cs
    ∧ runEmacsDaemon stderr ch w
      = if decide (k ≤ r) then Done tt w' else Blocked w'.
Proof.
  intros [Hden Hdir] Hch k cs. unfold runEmacsDaemon. unfold bind at 1.
  rewrite os_Create_ok by done. cbn [negb]. unfold bind at 1, emit.
  unfold bind at 1. erewrite monitorLoop_sends by (cbn; exact Hch).
  fold k. destruct (decide (k ≤ r)); eexists; (split; [|reflexivity]); done.
Qed.

Lemma runEmacsDaemon_panics stderr ch w :
  logPath ∈ denied w →
  runEmacsDaemon stderr ch w = Panicked (logEvent (EvCreate logPath false) w).
Proof.
  intros Hden. unfold runEmacsDaemon, bind, os_Create.
  by rewrite decide_True.
Qed.

(** The whole run of the monitor on a channel with [r] receives left: it
    creates its log file, starts the daemon, and sends once per matching
    line; it goes on to wait for the daemon and returns when every send
    found a receiver, and stays blocked in the first send that found
    none. *)
Lemma runEmacsDaemon_run stderr w ch r got :
  logCreatable w → chans w !! ch = Some (mkChan r got) →
  let k := matchCount (scanLines stderr) in
  let w1 := logEvent EvStartDaemon
              (logEvent (EvCreate logPath true)
                 (setFs (<[logPath := File true ""]> (fs w)) w)) in
  let w2 := setChans
              (<[ch := mkChan (r - k) (got ++ replicate (min r k) SuccessMsg)]>
                 (chans w)) w1 in
  runEmacsDaemon stderr ch w
  = if decide (k ≤ r) then Done tt (logEvent EvWaitDaemon w2) else Blocked w2.
Proof.
  intros [Hden Hdir] Hch k w1 w2. unfold runEmacsDaemon. unfold bind at 1.
  rewrite os_Create_ok by done. cbn [negb]. unfold bind at 1, emit.
  unfold bind at 1. erewrite monitorLoop_sends by (cbn; exact Hch).
  fold k. by destruct (decide (k ≤ r)).
Qed.

Lemma startDaemonCmd_outcome stderr w :
  logCreatable w →
  let k := matchCount (scanLines stderr) in
  ∃ w', chans w' = chans w ++ [mkChan (1 - k) (replicate (min 1 k) SuccessMsg)]
    ∧ startDaemonCmd stderr w
      = if decide (0 < k) then Done (Some DaemonReadyMsg) w' else Blocked w'.
Proof.
  intros Hlog k. unfold startDaemonCmd. unfold bind at 1, emit.
  unfold bind at 1, make_chan. unfold bind at 1.
  match goal with |- context [runEmacsDaemon stderr ?c ?w1] =>
    destruct (runEmacsDaemon_sends stderr w1 c 1 []) as (w' & Hcs & ->)
  end.
  { exact Hlog. }
  { cbn. by rewrite lookup_app_r, Nat.sub_diag. }
  fold k in Hcs |- *. cbn [chans setChans logEvent] in Hcs.
  rewrite insert_app_r_alt, Nat.sub_diag in Hcs by done. cbn in Hcs.
  assert (receiveFirst (length (chans w)) w'
          = if decide (0 < k) then Done SuccessMsg w' else Blocked w') as Hrecv.
  { unfold receiveFirst. rewrite Hcs, lookup_app_r, Nat.sub_diag by done. cbn.
    destruct k as [|k]; [done|]. by rewrite decide_True by lia. }
  exists w'. split; [done|].
  destruct (decide (k ≤ 1)); cbn [logEvent setChans chans] in *; rewrite Hrecv;
    destruct (decide (0 < k)); try done;
    by rewrite decide_True by done.
Qed.

(** * The claims *)

(** C1.  Where a file already exists at [todayFile], [createDailyNote] is a
    no-op: it returns the same world (no event is logged, so nothing is
    written, and every file is byte for byte what it was) and the same
    model (so [LastFileCreated] and [PreviousFileCreated] are unchanged).
    Hence, when a first call creates the note, the two calls together
    create and write the file exactly once: the first call does, and a
    second call for the same [todayFile] returns its world and model as
    they are. *)
Theorem createDailyNote_idempotent today yest m w :
  (is_Some (fs w !! today) → createDailyNote today yest m w = Done m w)
  ∧ (fs w !! today = None → today ∉ denied w → cursorInRange m →
     ∃ m1 w1 evs,
       createDailyNote today yest m w = Done m1 w1
       ∧ trace w1 = trace w ++ evs
       ∧ fileWrites today evs = 1 ∧ creations today evs = 1
       ∧ ∀ yest', createDailyNote today yest' m1 w1 = Done m1 w1).
Proof.
  split; [apply createDailyNote_exists|].
  intros Hnone Hden Hc. apply cursorInRange_lookup in Hc as (H0 & p & Hp).
  destruct (createDailyNote_new today yest m w p Hnone Hden H0 Hp)
    as (w1 & Hrun & Hfs & Htr & _).
  eexists _, w1, _. split; [exact Hrun|]. split; [exact Htr|].
  split; [apply fileWrites_three|]. split; [apply creations_three|].
  intros yest'. apply createDailyNote_exists.
  rewrite Hfs, lookup_insert_eq. by eexists.
Qed.

Lemma createDailyNote_idempotent_witness :
  createDailyNote "2024-01-01.org" "2024-01-01.org" exampleModel exampleWorld
  = Done exampleModel exampleWorld
  ∧ ∃ m1 w1 evs,
      createDailyNote "2024-01-02.org" "2024-01-01.org" exampleModel exampleWorld
      = Done m1 w1
      ∧ trace w1 = trace exampleWorld ++ evs
      ∧ fileWrites "2024-01-02.org" evs = 1
      ∧ creations "2024-01-02.org" evs = 1
      ∧ ∀ yest',
          createDailyNote "2024-01-02.org" yest' m1 w1 = Done m1 w1.
Proof.
  split.
  - apply (proj1 (createDailyNote_idempotent "2024-01-01.org" "2024-01-01.org"
                    exampleModel exampleWorld)).
    vm_compute. eauto.
  - apply (proj2 (createDailyNote_idempotent "2024-01-02.org" "2024-01-01.org"
                    exampleModel exampleWorld)).
    + vm_compute. reflexivity.
    + apply not_elem_of_empty.
    + split; cbn; lia.
Defined.

(** C2, counterexample.  In a note where the marker line comes a second
    time before the next header, the specified section stops at the second
    marker line (it begins with the header prefix) while [extractSection]
    goes on past it. *)
Lemma extractSection_not_as_specified :
  os_Open exampleWorld "twice.org" = Some (File true twiceMarkedNote)
  ∧ (∃ line, line ∈ scanLines twiceMarkedNote
             ∧ strings_TrimSpace line = SourceHeader)
  ∧ sectionAsSpecified SourceHeader (scanLines twiceMarkedNote) = ["- a"]
  ∧ extractSection exampleWorld "twice.org" SourceHeader = ["- a"; "- b"]
  ∧ extractSection exampleWorld "twice.org" SourceHeader
    ≠ sectionAsSpecified SourceHeader (scanLines twiceMarkedNote).
Proof.
  split; [vm_compute; reflexivity|]. split.
  - exists "* For tomorrow". split; [|vm_compute; reflexivity].
    vm_compute. left.
  - split; [vm_compute; reflexivity|]. split; [vm_compute; reflexivity|].
    vm_compute. discriminate.
Qed.

(** C2, as amended.  [extractSection] returns the empty sequence when the
    file cannot be opened; otherwise, over the lines the scanner delivers,
    it returns untransformed the lines after the first line that
    trim-equals the marker, up to but excluding the first later line that
    begins with the header prefix and does not itself trim-equal the
    marker (or to the end), leaving out every later line that trim-equals
    the marker.  The result is empty when no line trim-equals the marker,
    and it is the section as specified whenever no line after the first
    marker line trim-equals the marker again. *)
Theorem extractSection_scanned w path marker :
  extractSection w path marker
  = match os_Open w path with
    | Some file => sectionAsScanned marker (scannerTexts file)
    | None => []
    end
  ∧ (∀ file, os_Open w path = Some file →
       Forall (λ l, strings_TrimSpace l ≠ marker) (scannerTexts file) →
       extractSection w path marker = [])
  ∧ (∀ file, os_Open w path = Some file →
       Forall (λ l, strings_TrimSpace l ≠ marker)
         (afterFirst (isMarker marker) (scannerTexts file)) →
       extractSection w path marker
       = sectionAsSpecified marker (scannerTexts file)).
Proof.
  unfold extractSection. split; [|split].
  - destruct (os_Open w path); [apply scanLoop_section | done].
  - intros file -> Hno. rewrite scanLoop_section. unfold sectionAsScanned.
    by rewrite afterFirst_none by by apply not_marker_false.
  - intros file -> Hno. rewrite scanLoop_section.
    by apply sectionAsScanned_plain.
Qed.

Lemma extractSection_scanned_witness :
  extractSection exampleWorld "nothing.org" SourceHeader = []
  ∧ extractSection exampleWorld "/notes" SourceHeader = []
  ∧ extractSection exampleWorld "2024-01-01.org" SourceHeader
    = sectionAsSpecified SourceHeader (scanLines yesterdayNote)
  ∧ sectionAsSpecified SourceHeader (scanLines yesterdayNote)
    = ["- task1"; "- task2"].
Proof.
  pose proof (extractSection_scanned exampleWorld "nothing.org" SourceHeader)
    as (H1 & _ & _).
  pose proof (extractSection_scanned exampleWorld "/notes" SourceHeader)
    as (_ & H2 & _).
  pose proof (extractSection_scanned exampleWorld "2024-01-01.org" SourceHeader)
    as (_ & _ & H3).
  split; [exact H1|]. split; [|split; [|vm_compute; reflexivity]].
  - apply (H2 Dir); [vm_compute; reflexivity | constructor].
  - apply (H3 (File true yesterdayNote)); [vm_compute; reflexivity|].
    replace (afterFirst _ _) with ["- task1"; "- task2"]
      by (vm_compute; reflexivity).
    repeat constructor; vm_compute; discriminate.
Defined.

(** C3, counterexample.  With a back end that never lets a client attach,
    a run of the workflow makes five attach attempts, not four. *)
Lemma runDailyWorkflow_five_attempts :
  (∀ k, attachable exampleWorld k = false)
  ∧ ∃ m' w',
      runDailyWorkflow exampleJoin "/notes" exampleModel exampleWorld
      = Done m' w'
      ∧ attachAttempts (trace w') = 5
      ∧ attachAttempts (trace w') ≠ 4.
Proof.
  split; [done|]. eexists _, _. split; [vm_compute; reflexivity|].
  split; [vm_compute; reflexivity | vm_compute; discriminate].
Qed.

(** C3, as amended.  In every run that gets past the check of the project
    directory, with the cursor on a project, in which no attach attempt
    succeeds, the workflow makes exactly five attach attempts: one at once
    and four retries, each retry preceded by the fixed delay of
    [DaemonOpenRetryTime] seconds and by nothing else.  It then returns
    normally; it has no result to report the failure with. *)
Theorem runDailyWorkflow_attach_exhaustion join projectPath m w :
  statOk w projectPath = true → cursorInRange m →
  (∀ k, attachable w k = false) →
  ∃ m' w' evs cur prev,
    runDailyWorkflow join projectPath m w = Done m' w'
    ∧ trace w' = trace w ++ evs ++ exhaustedAttach cur prev
    ∧ attachAttempts evs = 0
    ∧ Forall (λ e, ∀ n, e ≠ EvSleep n) evs
    ∧ attachAttempts (exhaustedAttach cur prev) = 5.
Proof.
  intros Hroot Hc Hnever.
  destruct (runDailyWorkflow_never join projectPath m w Hroot Hc Hnever)
    as (m' & w' & evs & cur & prev & Hrun & Htr & Hatt & Hsl).
  exists m', w', evs, cur, prev. by repeat split.
Qed.

Lemma runDailyWorkflow_attach_exhaustion_witness :
  ∃ m' w' evs cur prev,
    runDailyWorkflow exampleJoin "/notes" exampleModel exampleWorld
    = Done m' w'
    ∧ trace w' = trace exampleWorld ++ evs ++ exhaustedAttach cur prev
    ∧ attachAttempts evs = 0
    ∧ Forall (λ e, ∀ n, e ≠ EvSleep n) evs
    ∧ attachAttempts (exhaustedAttach cur prev) = 5.
Proof.
  apply (runDailyWorkflow_attach_exhaustion exampleJoin "/notes"
           exampleModel exampleWorld).
  - vm_compute. reflexivity.
  - split; cbn; lia.
  - intros k. reflexivity.
Defined.

(** C4, counterexample.  The file written for 2024-01-02 is not the
    specified sequence of lines: a blank line follows the title line. *)
Lemma createDailyNote_not_layoutAsSpecified :
  ∃ text,
    fs (worldOf (createDailyNote "2024-01-02.org" "2024-01-01.org"
                   exampleModel exampleWorld)) !! "2024-01-02.org"
    = Some (File true text)
    ∧ text ≠ layoutAsSpecified "2024-01-02" ["- task1"; "- task2"]
    ∧ scanLines text
      = ["#+TITLE: Daily Note 2024-01-02"; ""; "* TODO"; "- task1"; "- task2";
         ""; "* For tomorrow"].
Proof.
  eexists. split; [vm_compute; reflexivity|].
  split; [vm_compute; discriminate | vm_compute; reflexivity].
Qed.

(** C4, as amended.  Whenever [createDailyNote] creates today's note, the
    file it writes consists of, in order: the title line with the date
    read from the clock in the layout YYYY-MM-DD (four, two and two
    decimal digits, for a year of at most four digits), a blank line, the
    to-do marker line, then the migrated lines as they were extracted and
    in their order, or the one placeholder line when nothing was migrated,
    then a blank line, then the unfinished-work marker line; each line is
    ended by a line feed and nothing follows. *)
Theorem createDailyNote_layout today yest m w :
  fs w !! today = None → today ∉ denied w →
  let t := now w (clockReads w) in
  fs (worldOf (createDailyNote today yest m w)) !! today
  = Some (File true
            (joinLines
               (["#+TITLE: Daily Note " +:+ Format t; ""; DestinationHeader]
                ++ todoLines (migrated w yest) ++ [""; SourceHeader])))
  ∧ (migrated w yest = [] → todoLines (migrated w yest) = ["  [ ] "])
  ∧ (migrated w yest ≠ [] → todoLines (migrated w yest) = migrated w yest)
  ∧ (year t < 10 ^ 4 → month t < 10 ^ 2 → day t < 10 ^ 2 →
     Format t = lowDigits 4 (year t) +:+ "-" +:+ lowDigits 2 (month t)
                  +:+ "-" +:+ lowDigits 2 (day t)).
Proof.
  intros Hnone Hden t. split; [|split; [|split]].
  - rewrite createDailyNote_written by done.
    by rewrite lookup_insert_eq, noteText_lines.
  - by intros ->.
  - by destruct (migrated w yest).
  - intros Hy Hm Hd. by apply Format_shape.
Qed.

Lemma createDailyNote_layout_witness :
  fs (worldOf (createDailyNote "2024-01-02.org" "2024-01-01.org"
                 exampleModel exampleWorld)) !! "2024-01-02.org"
  = Some (File true
            (joinLines ["#+TITLE: Daily Note 2024-01-02"; ""; "* TODO";
                        "- task1"; "- task2"; ""; "* For tomorrow"]))
  ∧ fs (worldOf (createDailyNote "2024-01-02.org" "nothing.org"
                   exampleModel exampleWorld)) !! "2024-01-02.org"
    = Some (File true
              (joinLines ["#+TITLE: Daily Note 2024-01-02"; ""; "* TODO";
                          "  [ ] "; ""; "* For tomorrow"]))
  ∧ Format (now exampleWorld (clockReads exampleWorld)) = "2024-01-02".
Proof.
  split; [|split].
  - destruct (createDailyNote_layout "2024-01-02.org" "2024-01-01.org"
                exampleModel exampleWorld) as (H & _ & Hsome & _).
    + vm_compute. reflexivity.
    + apply not_elem_of_empty.
    + rewrite H. rewrite Hsome by (vm_compute; discriminate).
      vm_compute. reflexivity.
  - destruct (createDailyNote_layout "2024-01-02.org" "nothing.org"
                exampleModel exampleWorld) as (H & Hnone & _ & _).
    + vm_compute. reflexivity.
    + apply not_elem_of_empty.
    + rewrite H. rewrite Hnone by (vm_compute; reflexivity).
      vm_compute. reflexivity.
  - destruct (createDailyNote_layout "2024-01-02.org" "nothing.org"
                exampleModel exampleWorld) as (_ & _ & _ & Hfmt).
    + vm_compute. reflexivity.
    + apply not_elem_of_empty.
    + rewrite Hfmt; [vm_compute; reflexivity | cbn; lia ..].
Defined.

(** C5.  When [createDailyNote] creates the note at [todayFile], the entry
    under the cursor is updated by one shift: [PreviousFileCreated]
    receives the old [LastFileCreated], [LastFileCreated] becomes
    [todayFile]; nothing else in the model changes, and the shifted
    registry is handed once to [saveConfig]. *)
Theorem createDailyNote_shifts_linkage today yest m w p :
  fs w !! today = None → today ∉ denied w →
  (0 ≤ cursor m)%Z → projects m !! Z.to_nat (cursor m) = Some p →
  let p' := mkProject (Name p) (Path p) (Starred p) (LastOpened p)
              today (LastFileCreated p) in
  let m' := setProjects (<[Z.to_nat (cursor m) := p']> (projects m)) m in
  ∃ w' text,
    createDailyNote today yest m w = Done m' w'
    ∧ trace w' = trace w ++ [EvCreate today true; EvWrite today text;
                             EvSaveConfig (projects m')].
Proof.
  intros Hnone Hden H0 Hp p' m'.
  destruct (createDailyNote_new today yest m w p Hnone Hden H0 Hp)
    as (w' & Hrun & _ & Htr & _).
  by exists w', (noteText (Format (now w (clockReads w))) (migrated w yest)).
Qed.

Lemma createDailyNote_shifts_linkage_witness :
  LastFileCreated exampleProject = "2024-01-01.org"
  ∧ PreviousFileCreated exampleProject = ""
  ∧ ∃ w' text,
      createDailyNote "2024-01-02.org" "2024-01-01.org" exampleModel
        exampleWorld
      = Done (mkModel
                [mkProject "notes" "/notes" false 0
                   "2024-01-02.org" "2024-01-01.org"]
                0 false "/notes" 80 24 false) w'
      ∧ trace w'
        = trace exampleWorld
            ++ [EvCreate "2024-01-02.org" true;
                EvWrite "2024-01-02.org" text;
                EvSaveConfig [mkProject "notes" "/notes" false 0
                                "2024-01-02.org" "2024-01-01.org"]].
Proof.
  split; [reflexivity|]. split; [reflexivity|].
  apply (createDailyNote_shifts_linkage "2024-01-02.org" "2024-01-01.org"
           exampleModel exampleWorld exampleProject).
  - vm_compute. reflexivity.
  - apply not_elem_of_empty.
  - cbn. lia.
  - reflexivity.
Defined.

(** C6.  When the file at [todayFile] cannot be created, [createDailyNote]
    returns with the model as it was, so [LastFileCreated] and
    [PreviousFileCreated] are unchanged, and with every file as it was;
    the failed attempt is the only thing it has done.  The workflow around
    it does not try again: over the whole run the file is attempted once,
    never written, and the registry comes back unchanged. *)
Theorem createDailyNote_create_fails today yest m w :
  fs w !! today = None → today ∈ denied w →
  (∃ w', createDailyNote today yest m w = Done m w'
     ∧ fs w' = fs w ∧ trace w' = trace w ++ [EvCreate today false])
  ∧ ∀ join root,
      statOk w root = true → cursorInRange m →
      join root (Format (now w (clockReads w)) +:+ FileExtension) = today →
      ∃ w' evs,
        runDailyWorkflow join root m w = Done m w'
        ∧ fs w' = fs w
        ∧ trace w' = trace w ++ EvCreate today false :: evs
        ∧ creations today evs = 0 ∧ fileWrites today evs = 0.
Proof.
  intros Hnone Hden. split.
  { eexists. by rewrite createDailyNote_denied. }
  intros join root Hroot Hc Htoday.
  apply cursorInRange_lookup in Hc as (H0 & p & Hp).
  rewrite (runDailyWorkflow_unfold m p H0 Hp) by done. unfold bind at 1.
  rewrite Htoday, createDailyNote_denied by done. unfold bind at 1.
  match goal with |- context [attachPhase m ?w1] =>
    destruct (attachPhase_trace m p H0 Hp w1) as (b' & w2 & evs & -> & Htr & Hev & Hfs)
  end.
  exists w2, evs. split; [done|]. split; [by rewrite Hfs|].
  split; [|by apply filter_notFileEvent].
  rewrite Htr. cbn. by rewrite <- app_assoc.
Qed.

Lemma createDailyNote_create_fails_witness :
  (∃ w', createDailyNote "2024-01-02.org" "2024-01-01.org" exampleModel
           readOnlyWorld = Done exampleModel w'
     ∧ fs w' = fs readOnlyWorld
     ∧ trace w' = trace readOnlyWorld ++ [EvCreate "2024-01-02.org" false])
  ∧ ∃ w' evs,
      runDailyWorkflow (λ _ file, file) "/notes" exampleModel readOnlyWorld
      = Done exampleModel w'
      ∧ fs w' = fs readOnlyWorld
      ∧ trace w'
        = trace readOnlyWorld ++ EvCreate "2024-01-02.org" false :: evs
      ∧ creations "2024-01-02.org" evs = 0
      ∧ fileWrites "2024-01-02.org" evs = 0.
Proof.
  destruct (createDailyNote_create_fails "2024-01-02.org" "2024-01-01.org"
              exampleModel readOnlyWorld) as [H1 H2].
  - vm_compute. reflexivity.
  - apply elem_of_union_l, elem_of_singleton. reflexivity.
  - split; [exact H1|]. apply (H2 (λ _ file, file) "/notes").
    + vm_compute. reflexivity.
    + split; cbn; lia.
    + vm_compute. reflexivity.
Defined.

(** C7.  For a path that does not name a readable regular file (nothing
    there, a file that cannot be opened, a directory), [extractSection]
    returns the empty sequence, and its result type has no room for an
    error.  A reference note like that does not stop the materializer:
    today's note is created all the same, with the placeholder line in
    place of migrated content. *)
Theorem extractSection_unreadable w path marker :
  ¬ readableFile w path →
  extractSection w path marker = []
  ∧ ∀ today m,
      fs w !! today = None → today ∉ denied w → cursorInRange m →
      ∃ m' w',
        createDailyNote today path m w = Done m' w'
        ∧ fs w' !! today
          = Some (File true
                    (joinLines
                       ["#+TITLE: Daily Note " +:+ Format (now w (clockReads w));
                        ""; DestinationHeader; "  [ ] "; ""; SourceHeader])).
Proof.
  intros Hnr.
  assert (extractSection w path SourceHeader = []
          ∧ extractSection w path marker = []) as [Hsrc Hex].
  { unfold extractSection. by destruct (os_Open_readable w path Hnr) as [-> | ->]. }
  split; [exact Hex|]. intros today m Hnone Hden Hc.
  apply cursorInRange_lookup in Hc as (H0 & p & Hp).
  destruct (createDailyNote_new today path m w p Hnone Hden H0 Hp)
    as (w' & Hrun & Hfs & _).
  eexists _, w'. split; [exact Hrun|].
  rewrite Hfs, lookup_insert_eq, noteText_lines.
  assert (migrated w path = []) as ->; [|done].
  unfold migrated. rewrite Hsrc. by destruct (statOk w path).
Qed.

Lemma extractSection_unreadable_witness :
  extractSection exampleWorld "nothing.org" SourceHeader = []
  ∧ extractSection exampleWorld "secret.org" SourceHeader = []
  ∧ ∃ m' w',
      createDailyNote "2024-01-02.org" "secret.org" exampleModel exampleWorld
      = Done m' w'
      ∧ fs w' !! "2024-01-02.org"
        = Some (File true
                  (joinLines
                     ["#+TITLE: Daily Note "
                        +:+ Format (now exampleWorld (clockReads exampleWorld));
                      ""; DestinationHeader; "  [ ] "; ""; SourceHeader])).
Proof.
  split; [|split].
  - apply (extractSection_unreadable exampleWorld "nothing.org" SourceHeader).
    intros [c Hc]. vm_compute in Hc. discriminate.
  - apply (extractSection_unreadable exampleWorld "secret.org" SourceHeader).
    intros [c Hc]. vm_compute in Hc. discriminate.
  - apply (extractSection_unreadable exampleWorld "secret.org" SourceHeader).
    + intros [c Hc]. vm_compute in Hc. discriminate.
    + vm_compute. reflexivity.
    + apply not_elem_of_empty.
    + split; cbn; lia.
Defined.

(** C8, counterexample.  On a stream none of whose lines contains the
    marker the monitor signals nothing at all: the daemon is drained and
    waited for, no message is ever sent on the channel, and the command
    that receives from it stays blocked; there is no time-out signal. *)
Lemma startDaemonCmd_never_times_out :
  logCreatable exampleWorld
  ∧ (∀ line, line ∈ scanLines quietStderr →
             strings_Contains line DoomLoadedMsg = false)
  ∧ ∃ w',
      startDaemonCmd quietStderr exampleWorld = Blocked w'
      ∧ chans w' = [mkChan 1 []]
      ∧ trace w' = [EvPrint ("xd" +:+ nl); EvCreate logPath true;
                    EvStartDaemon; EvWaitDaemon].
Proof.
  split; [|split].
  - split; [apply not_elem_of_empty | vm_compute; discriminate].
  - apply matchCount_zero. vm_compute. reflexivity.
  - eexists. split; [vm_compute; reflexivity|].
    split; vm_compute; reflexivity.
Qed.

(** C8, as amended.  Provided its log file can be created, for every
    finite stream on the daemon's standard error: if some line the scanner
    delivers contains the marker as a substring, the command started on
    [StartDaemonMsg] receives the success message, exactly once, and
    returns [DaemonReadyMsg]; if no line the scanner delivers contains it,
    the monitor sends nothing, ends its scan, waits for the daemon and
    returns, while the command stays blocked on its receive.
    So the command returns [DaemonReadyMsg] if and only if some delivered
    line contains the marker.  There is no wait limit and no time-out
    signal.  The lines the scanner delivers are those of [scanLines]: the
    lines of the stream up to the first one that does not fit the
    scanner's buffer. *)
Theorem startDaemonCmd_ready_iff_marker stderr w :
  logCreatable w →
  let ch := length (chans w) in
  let w0 := setChans (chans w ++ [mkChan 1 []])
              (logEvent (EvPrint ("xd" +:+ nl)) w) in
  let o := startDaemonCmd stderr w in
  let marked :=
    ∃ line, line ∈ scanLines stderr
            ∧ strings_Contains line DoomLoadedMsg = true in
  (marked →
     (∃ w', o = Done (Some DaemonReadyMsg) w')
     ∧ received <$> chans (worldOf o) !! ch = Some [SuccessMsg])
  ∧ ((∀ line, line ∈ scanLines stderr →
              strings_Contains line DoomLoadedMsg = false) →
     ∃ w',
       runEmacsDaemon stderr ch w0 = Done tt w'
       ∧ o = Blocked w'
       ∧ received <$> chans w' !! ch = Some []
       ∧ trace w'
         = trace w ++ [EvPrint ("xd" +:+ nl); EvCreate logPath true;
                       EvStartDaemon; EvWaitDaemon])
  ∧ ((∃ w', o = Done (Some DaemonReadyMsg) w') ↔ marked).
Proof.
  intros Hlog ch w0 o marked.
  assert (logCreatable w0) as Hlog0 by exact Hlog.
  assert (chans w0 !! ch = Some (mkChan 1 [])) as Hch
    by (cbn; by rewrite lookup_app_r, Nat.sub_diag).
  pose proof (runEmacsDaemon_run stderr w0 ch 1 [] Hlog0 Hch) as Hmon.
  cbv zeta in Hmon.
  destruct (startDaemonCmd_outcome stderr w Hlog) as (w' & Hcs & Hout).
  fold o in Hout.
  assert (marked →
     (∃ w', o = Done (Some DaemonReadyMsg) w')
     ∧ received <$> chans (worldOf o) !! ch = Some [SuccessMsg]) as Hyes.
  { intros Hex. apply matchCount_pos in Hex. rewrite Hout.
    rewrite decide_True by done.
    split; [by eexists|]. cbn [worldOf]. subst ch.
    rewrite Hcs, lookup_app_r, Nat.sub_diag by done. cbn.
    by destruct (matchCount (scanLines stderr)); [lia|]. }
  split; [exact Hyes|]. split.
  - intros Hall. apply matchCount_zero in Hall. rewrite Hall in Hmon.
    rewrite decide_True in Hmon by lia. eexists. split; [exact Hmon|].
    split; [|split].
    + subst o. unfold startDaemonCmd. unfold bind at 1, emit.
      unfold bind at 1, make_chan. unfold bind at 1.
      cbn [chans logEvent]. fold ch. fold w0. rewrite Hmon.
      unfold receiveFirst. subst w0. cbn [chans setChans logEvent].
      subst ch. rewrite insert_app_r_alt, Nat.sub_diag by done.
      rewrite lookup_app_r, Nat.sub_diag by done. done.
    + subst w0. cbn [chans setChans logEvent]. subst ch.
      rewrite insert_app_r_alt, Nat.sub_diag by done.
      rewrite lookup_app_r, Nat.sub_diag by done. done.
    + cbn. by rewrite <- !app_assoc.
  - split; [|apply Hyes]. intros [w1 Hdone]. apply matchCount_pos.
    rewrite Hout in Hdone.
    by destruct (decide (0 < matchCount (scanLines stderr))).
Qed.

Lemma startDaemonCmd_ready_iff_marker_witness :
  ((∃ w', startDaemonCmd loadedStderr exampleWorld
          = Done (Some DaemonReadyMsg) w')
   ∧ received <$> chans (worldOf (startDaemonCmd loadedStderr exampleWorld))
                    !! length (chans exampleWorld)
     = Some [SuccessMsg])
  ∧ ∃ w',
      runEmacsDaemon quietStderr (length (chans exampleWorld))
        (setChans (chans exampleWorld ++ [mkChan 1 []])
           (logEvent (EvPrint ("xd" +:+ nl)) exampleWorld)) = Done tt w'
      ∧ startDaemonCmd quietStderr exampleWorld = Blocked w'
      ∧ received <$> chans w' !! length (chans exampleWorld) = Some []
      ∧ trace w'
        = trace exampleWorld
          ++ [EvPrint ("xd" +:+ nl); EvCreate logPath true; EvStartDaemon;
              EvWaitDaemon].
Proof.
  assert (logCreatable exampleWorld) as Hlog
    by (split; [apply not_elem_of_empty | vm_compute; discriminate]).
  split.
  - apply (startDaemonCmd_ready_iff_marker loadedStderr exampleWorld Hlog).
    exists "> Doom loaded 312 packages in 1.2s".
    split; [vm_compute; right; left | vm_compute; reflexivity].
  - apply (startDaemonCmd_ready_iff_marker quietStderr exampleWorld Hlog).
    apply matchCount_zero. vm_compute. reflexivity.
Defined.

(** C9, at the failing input.  Where the log file of the monitor cannot be
    created, [runEmacsDaemon] panics before it starts the daemon, and the
    panic of that goroutine ends the program: the command started on
    [StartDaemonMsg] does not return. *)
Theorem runEmacsDaemon_panics_without_log :
  logPath ∈ denied readOnlyWorld
  ∧ runEmacsDaemon loadedStderr 0 readOnlyWorld
    = Panicked (logEvent (EvCreate logPath false) readOnlyWorld)
  ∧ ∃ w', startDaemonCmd loadedStderr readOnlyWorld = Panicked w'
          ∧ trace w' = [EvPrint ("xd" +:+ nl); EvCreate logPath false].
Proof.
  assert (logPath ∈ denied readOnlyWorld) as Hden
    by (apply elem_of_union_r, elem_of_singleton; reflexivity).
  split; [exact Hden|]. split; [by apply runEmacsDaemon_panics|].
  eexists. split; vm_compute; reflexivity.
Qed.

(** C10.  While [extractSection] is capturing, a line that trim-equals the
    marker is consumed: it is not emitted and capture goes on, whether or
    not the line begins with the header prefix.  So for a file whose lines
    are: lines that do not trim-equal the marker, then one or more marker
    sections in a row (a marker line, then lines that neither trim-equal
    the marker nor begin with the header prefix), then the end of the file
    or a header line that is not the marker, the result is the lines of
    all those sections, concatenated in order. *)
Theorem extractSection_repeated_marker marker :
  (∀ lines line texts,
     strings_TrimSpace line = marker →
     scanLoop marker true lines (line :: texts)
     = scanLoop marker true lines texts)
  ∧ ∀ w path file pre (secs : list (string * list string)) rest,
      os_Open w path = Some file →
      scannerTexts file = pre ++ concat ((λ s, s.1 :: s.2) <$> secs) ++ rest →
      Forall (λ l, strings_TrimSpace l ≠ marker) pre →
      secs ≠ [] →
      Forall (λ s : string * list string,
                strings_TrimSpace s.1 = marker
                ∧ Forall (λ l, strings_TrimSpace l ≠ marker
                               ∧ isTopLevel l = false) s.2) secs →
      (rest = [] ∨ ∃ h t, rest = h :: t ∧ strings_TrimSpace h ≠ marker
                          ∧ isTopLevel h = true) →
      extractSection w path marker = concat (snd <$> secs).
Proof.
  split; [intros; by apply scanLoop_marker|].
  intros w path file pre secs rest Hopen Htexts Hpre Hne Hsecs Hrest.
  unfold extractSection. rewrite Hopen, Htexts, scanLoop_searching.
  destruct secs as [|[mk body] secs]; [done|].
  pose proof Hsecs as Hsecs'.
  apply Forall_cons in Hsecs' as [[Hmk _] _]. cbn in Hmk.
  cbn [fmap list_fmap concat fst]. rewrite <- !app_assoc, <- app_comm_cons.
  rewrite (afterFirst_app (isMarker marker) pre mk);
    [| by apply not_marker_false | by apply bool_decide_eq_true_2].
  change (body ++ concat ((λ s, s.1 :: s.2) <$> secs) ++ rest)
    with (body ++ concat ((λ s : string * list string, s.1 :: s.2) <$> secs)
            ++ rest).
  rewrite <- (scanLoop_marker marker true [] mk) by done.
  rewrite (app_comm_cons body), app_assoc.
  change (mk :: body) with ((λ s : string * list string, s.1 :: s.2) (mk, body)).
  change (?f (mk, body) ++ concat (?f <$> secs))
    with (concat (f <$> (mk, body) :: secs)).
  rewrite scanLoop_sections by done. cbn [app].
  destruct Hrest as [-> | (h & t & -> & Hh & Ht)]; [done|].
  by rewrite scanLoop_header.
Qed.

Lemma extractSection_repeated_marker_witness :
  scanLoop SourceHeader true ["- a"] ["  * For tomorrow "; "- b"]
  = scanLoop SourceHeader true ["- a"] ["- b"]
  ∧ extractSection exampleWorld "twice.org" SourceHeader = ["- a"; "- b"].
Proof.
  split.
  - apply (proj1 (extractSection_repeated_marker SourceHeader)).
    vm_compute. reflexivity.
  - apply (proj2 (extractSection_repeated_marker SourceHeader) exampleWorld
             "twice.org" (File true twiceMarkedNote) []
             [("* For tomorrow", ["- a"]); ("* For tomorrow", ["- b"])]
             ["* Done"; "- c"]).
    + vm_compute. reflexivity.
    + vm_compute. reflexivity.
    + constructor.
    + discriminate.
    + repeat constructor; cbn; vm_compute; (reflexivity || discriminate).
    + right. exists "* Done", ["- c"].
      split; [reflexivity|]. split; vm_compute; (reflexivity || discriminate).
Defined.

(** * Further properties *)

(** ** The attach phase, for every back end *)

Lemma retryEvents_counts n att cur prev : ∀ k,
  attachAttempts (retryEvents n att k cur prev)
  = match firstSuccess n att k with Some j => S j | None => n end
  ∧ splitViews (retryEvents n att k cur prev)
    = attachAttempts (retryEvents n att k cur prev)
  ∧ sleeps (retryEvents n att k cur prev)
    = attachAttempts (retryEvents n att k cur prev).
Proof.
  unfold attachAttempts, splitViews, sleeps.
  induction n as [|n IH]; intros k; [cbn; auto|].
  cbn [retryEvents firstSuccess attemptEvents app List.filter isAttach
       isSplitView isSleep length].
  destruct (att k); [cbn; auto | cbn].
  destruct (IH (S k)) as (H1 & H2 & H3). rewrite H1, H2, H3.
  destruct (firstSuccess n att (S k)); cbn; auto.
Qed.

Lemma attachEvents_counts att k cur prev :
  attachAttempts (attachEvents att k cur prev)
  = match firstSuccess 5 att k with Some j => S j | None => 5 end
  ∧ splitViews (attachEvents att k cur prev)
    = attachAttempts (attachEvents att k cur prev)
  ∧ S (sleeps (attachEvents att k cur prev))
    = attachAttempts (attachEvents att k cur prev).
Proof.
  destruct (retryEvents_counts 4 att cur prev (S k)) as (H1 & H2 & H3).
  change (firstSuccess 5 att k)
    with (if att k then Some 0 else S <$> firstSuccess 4 att (S k)).
  unfold attachEvents.
  set (r := retryEvents 4 att (S k) cur prev) in *.
  set (f := firstSuccess 4 att (S k)) in *.
  unfold attachAttempts, splitViews, sleeps in *.
  destruct (att k); [cbn; auto|].
  cbn [attemptEvents app List.filter isAttach isSplitView isSleep length].
  rewrite H2, H3, H1. destruct f; cbn; auto.
Qed.

Lemma retryEvents_for n att cur prev : ∀ k,
  Forall (attachEventFor cur prev) (retryEvents n att k cur prev).
Proof.
  induction n as [|n IH]; intros k; [constructor|].
  cbn [retryEvents attemptEvents app].
  constructor; [by left|]. constructor; [by right; left|].
  constructor; [right; right; by eexists|].
  destruct (att k); [constructor | apply IH].
Qed.

Section AttachAnyBackend.

Variables (m : model) (p : Project).
Hypothesis cursor_nonneg : (0 ≤ cursor m)%Z.
Hypothesis cursor_on : projects m !! Z.to_nat (cursor m) = Some p.

Lemma openEmacs_events cur prev w :
  ∃ w', openEmacs cur prev w = Done (attachable w (attempts w)) w'
    ∧ trace w' = trace w ++ attemptEvents cur prev (attachable w (attempts w))
    ∧ attachable w' = attachable w ∧ attempts w' = S (attempts w)
    ∧ fs w' = fs w ∧ denied w' = denied w.
Proof.
  rewrite openEmacs_run. eexists. split; [reflexivity|].
  cbn. by rewrite <- app_assoc.
Qed.

Lemma retryLoop_events n :
  ∀ w, ∃ w',
    retryLoop n false m w
    = Done (bool_decide (is_Some (firstSuccess n (attachable w) (attempts w)))) w'
    ∧ trace w'
      = trace w ++ retryEvents n (attachable w) (attempts w)
                     (LastFileCreated p) (PreviousFileCreated p)
    ∧ fs w' = fs w ∧ denied w' = denied w.
Proof.
  induction n as [|n IH]; intros w.
  { exists w. cbn. by rewrite app_nil_r. }
  rewrite (retryLoop_turn m p cursor_nonneg cursor_on). unfold bind.
  destruct (openEmacs_events (LastFileCreated p) (PreviousFileCreated p)
              (logEvent (EvSleep DaemonOpenRetryTime) w))
    as (w1 & -> & Htr & Hatt & Hn & Hfs & Hden).
  cbn [attachable attempts logEvent] in *.
  cbn [retryEvents firstSuccess].
  destruct (attachable w (attempts w)) eqn:Hok.
  - exists w1. split; [by destruct n|]. rewrite Htr. cbn.
    rewrite <- !app_assoc. by rewrite Hfs, Hden.
  - destruct (IH w1) as (w2 & Hrun & Htr2 & Hfs2 & Hden2).
    rewrite Hatt, Hn in Hrun, Htr2.
    exists w2. split; [|split; [|split]].
    + rewrite Hrun. f_equal. apply bool_decide_ext.
      by rewrite fmap_is_Some.
    + rewrite Htr2, Htr. cbn. by rewrite <- !app_assoc.
    + by rewrite Hfs2, Hfs.
    + by rewrite Hden2, Hden.
Qed.

Lemma attachPhase_events w :
  ∃ w',
    attachPhase m w
    = Done (bool_decide (is_Some (firstSuccess 5 (attachable w) (attempts w)))) w'
    ∧ trace w'
      = trace w ++ attachEvents (attachable w) (attempts w)
                     (LastFileCreated p) (PreviousFileCreated p)
    ∧ fs w' = fs w ∧ denied w' = denied w.
Proof.
  rewrite (attachPhase_unfold m p cursor_nonneg cursor_on). unfold bind.
  destruct (openEmacs_events (LastFileCreated p) (PreviousFileCreated p) w)
    as (w1 & -> & Htr & Hatt & Hn & Hfs & Hden).
  unfold attachEvents. cbn [firstSuccess].
  destruct (attachable w (attempts w)) eqn:Hok.
  - exists w1. split; [done|]. by rewrite app_nil_r.
  - destruct (retryLoop_events 4 w1) as (w2 & Hrun & Htr2 & Hfs2 & Hden2).
    rewrite Hatt, Hn in Hrun, Htr2.
    exists w2. split; [|split; [|split]].
    + rewrite Hrun. f_equal. apply bool_decide_ext. by rewrite fmap_is_Some.
    + rewrite Htr2, Htr. by rewrite <- !app_assoc.
    + by rewrite Hfs2, Hfs.
    + by rewrite Hden2, Hden.
Qed.

End AttachAnyBackend.

(** The first success among the next attempts, in plain terms. *)
Lemma firstSuccess_at n att : ∀ k j,
  j < n → att (k + j) = true → (∀ i, i < j → att (k + i) = false) →
  firstSuccess n att k = Some j.
Proof.
  induction n as [|n IH]; intros k j Hj Hat Hbefore; [lia|].
  cbn [firstSuccess]. destruct j as [|j].
  - rewrite Nat.add_0_r in Hat. by rewrite Hat.
  - pose proof (Hbefore 0 ltac:(lia)) as Hk. rewrite Nat.add_0_r in Hk.
    rewrite Hk. rewrite (IH (S k) j); [done | lia | |].
    + by replace (S k + j) with (k + S j) by lia.
    + intros i Hi. replace (S k + i) with (k + S i) by lia.
      apply Hbefore. lia.
Qed.

Lemma attachEvents_for att k cur prev :
  Forall (attachEventFor cur prev) (attachEvents att k cur prev).
Proof.
  unfold attachEvents, attemptEvents. cbn [app].
  constructor; [by right; left|]. constructor; [right; right; by eexists|].
  destruct (att k); [constructor | apply retryEvents_for].
Qed.

(** X1.  The attach phase stops at the first attempt that succeeds: when
    attempt number [j] (counting from 0, [j ≤ 4]) is the first to succeed,
    [openEmacs] is run exactly [j + 1] times with [j] sleeps of the fixed
    delay before the retries, the phase ends with its flag set, and no
    file is touched. *)
Theorem attachPhase_stops_at_first_success m p w j :
  (0 ≤ cursor m)%Z → projects m !! Z.to_nat (cursor m) = Some p →
  j ≤ 4 → attachable w (attempts w + j) = true →
  (∀ i, i < j → attachable w (attempts w + i) = false) →
  ∃ w' evs,
    attachPhase m w = Done true w'
    ∧ trace w' = trace w ++ evs
    ∧ attachAttempts evs = S j ∧ sleeps evs = j
    ∧ Forall (attachEventFor (LastFileCreated p) (PreviousFileCreated p)) evs
    ∧ fs w' = fs w.
Proof.
  intros H0 Hp Hj Hat Hbefore.
  destruct (attachPhase_events m p H0 Hp w) as (w' & Hrun & Htr & Hfs & _).
  pose proof (firstSuccess_at 5 (attachable w) (attempts w) j
                ltac:(lia) Hat Hbefore) as Hfirst.
  destruct (attachEvents_counts (attachable w) (attempts w)
              (LastFileCreated p) (PreviousFileCreated p)) as (Hc & _ & Hs).
  rewrite Hfirst in Hrun, Hc.
  eexists w', _. split; [rewrite Hrun; by rewrite bool_decide_eq_true_2|].
  split; [exact Htr|]. split; [exact Hc|]. split; [lia|].
  split; [apply attachEvents_for | exact Hfs].
Qed.

Lemma attachPhase_stops_at_first_success_witness :
  ∃ w' evs,
    attachPhase exampleModel
      (mkWorld (fs exampleWorld) ∅ exampleClock 0 (λ k, bool_decide (k = 2))
         0 [] []) = Done true w'
    ∧ trace w' = [] ++ evs
    ∧ attachAttempts evs = 3 ∧ sleeps evs = 2
    ∧ Forall (attachEventFor "2024-01-01.org" "") evs
    ∧ fs w' = fs exampleWorld.
Proof.
  apply (attachPhase_stops_at_first_success exampleModel exampleProject
           (mkWorld (fs exampleWorld) ∅ exampleClock 0
              (λ k, bool_decide (k = 2)) 0 [] []) 2).
  - cbn. lia.
  - reflexivity.
  - lia.
  - reflexivity.
  - intros i Hi. cbn. apply bool_decide_eq_false_2. lia.
Defined.



(** ** Which files the materializer and the workflow touch *)








(** ** The back-end monitor beyond its first signal *)

(** X6.  The monitor sends once for every line that contains the marker.
    It gets as far as waiting for the daemon only when each of these sends
    finds a receiver; with the single receive of its caller and a second
    line containing the marker, it stays blocked in that second send: the
    one message has been delivered, the rest of the stream is not read and
    the daemon is never waited for. *)
Theorem runEmacsDaemon_blocks_on_second_match stderr w ch :
  logCreatable w → chans w !! ch = Some (mkChan 1 []) →
  (matchCount (scanLines stderr) ≤ 1 →
   ∃ w', runEmacsDaemon stderr ch w = Done tt w'
     ∧ trace w' = trace w ++ [EvCreate logPath true; EvStartDaemon; EvWaitDaemon])
  ∧ (2 ≤ matchCount (scanLines stderr) →
     ∃ w', runEmacsDaemon stderr ch w = Blocked w'
       ∧ chans w' !! ch = Some (mkChan 0 [SuccessMsg])
       ∧ trace w' = trace w ++ [EvCreate logPath true; EvStartDaemon]).
Proof.
  intros Hlog Hch. rewrite (runEmacsDaemon_run stderr w ch 1 []) by done.
  split; intros Hk.
  - rewrite decide_True by done. eexists. split; [reflexivity|].
    cbn. by rewrite <- !app_assoc.
  - rewrite decide_False by lia. eexists. split; [reflexivity|].
    cbn [chans setChans trace logEvent]. split.
    + rewrite list_lookup_insert_eq by (by eapply lookup_lt_Some).
      by replace (min 1 _) with 1 by lia; replace (1 - _) with 0 by lia.
    + by rewrite <- !app_assoc.
Qed.

Lemma runEmacsDaemon_blocks_on_second_match_witness :
  (∃ w', runEmacsDaemon loadedStderr 0
           (setChans [mkChan 1 []] exampleWorld) = Done tt w'
     ∧ trace w' = [] ++ [EvCreate logPath true; EvStartDaemon; EvWaitDaemon])
  ∧ ∃ w', runEmacsDaemon (loadedStderr +:+ loadedStderr) 0
            (setChans [mkChan 1 []] exampleWorld) = Blocked w'
      ∧ chans w' !! 0 = Some (mkChan 0 [SuccessMsg])
      ∧ trace w' = [] ++ [EvCreate logPath true; EvStartDaemon].
Proof.
  assert (logCreatable (setChans [mkChan 1 []] exampleWorld)) as Hlog
    by (split; [apply not_elem_of_empty | vm_compute; discriminate]).
  split.
  - apply (runEmacsDaemon_blocks_on_second_match loadedStderr
             (setChans [mkChan 1 []] exampleWorld) 0 Hlog); [reflexivity|].
    vm_compute. lia.
  - apply (runEmacsDaemon_blocks_on_second_match (loadedStderr +:+ loadedStderr)
             (setChans [mkChan 1 []] exampleWorld) 0 Hlog); [reflexivity|].
    vm_compute. lia.
Defined.

(** X7.  The command started on [StartDaemonMsg] never completes with a
    nil message: whenever it returns at all it returns [DaemonReadyMsg],
    and the one message its channel then holds is [SuccessMsg].  The
    comparison of the received string with [SuccessMsg] cannot fail. *)
Theorem startDaemonCmd_returns_only_ready stderr w r w' :
  startDaemonCmd stderr w = Done r w' →
  r = Some DaemonReadyMsg
  ∧ received <$> chans w' !! length (chans w) = Some [SuccessMsg].
Proof.
  intros Hrun. destruct (decide (logPath ∈ denied w)) as [Hden|Hden].
  { unfold startDaemonCmd, bind, emit, make_chan in Hrun.
    rewrite runEmacsDaemon_panics in Hrun by done. done. }
  assert (fs w !! logPath ≠ Some Dir) as Hdir.
  { intros Hdir.
    unfold startDaemonCmd, bind, emit, make_chan, runEmacsDaemon, bind,
      os_Create in Hrun. cbn [fs denied setChans logEvent] in Hrun.
    rewrite decide_False, Hdir in Hrun by done. done. }
  destruct (startDaemonCmd_outcome stderr w (conj Hden Hdir))
    as (w1 & Hcs & Hout).
  rewrite Hout in Hrun. destruct (decide (0 < matchCount (scanLines stderr)));
    [|done].
  injection Hrun as <- <-. split; [done|].
  rewrite Hcs, lookup_app_r, Nat.sub_diag by done. cbn.
  by destruct (matchCount (scanLines stderr)); [lia|].
Qed.

Lemma startDaemonCmd_returns_only_ready_witness :
  ∃ r w', startDaemonCmd loadedStderr exampleWorld = Done r w'
    ∧ r = Some DaemonReadyMsg
    ∧ received <$> chans w' !! length (chans exampleWorld) = Some [SuccessMsg].
Proof.
  eexists _, _. split; [vm_compute; reflexivity|].
  eapply (startDaemonCmd_returns_only_ready loadedStderr exampleWorld).
  vm_compute. reflexivity.
Defined.

(** ** What the section extractor returns *)

Lemma takeWhile_sublist (f : string → bool) ls :
  takeWhile f ls `sublist_of` ls.
Proof.
  induction ls as [|l ls IH]; cbn; [done|].
  destruct (f l); [by apply sublist_skip | apply sublist_nil_l].
Qed.

Lemma takeWhile_Forall (f : string → bool) ls :
  Forall (λ l, f l = true) (takeWhile f ls).
Proof.
  induction ls as [|l ls IH]; cbn; [constructor|].
  destruct (f l) eqn:Hf; by constructor.
Qed.

Lemma afterFirst_sublist (f : string → bool) ls :
  afterFirst f ls `sublist_of` ls.
Proof.
  induction ls as [|l ls IH]; cbn; [done|].
  destruct (f l); by apply sublist_cons.
Qed.

Lemma List_filter_sublist (f : string → bool) ls :
  List.filter f ls `sublist_of` ls.
Proof.
  induction ls as [|l ls IH]; cbn; [done|].
  destruct (f l); [by apply sublist_skip | by apply sublist_cons].
Qed.

Lemma sectionAsScanned_sublist marker texts :
  sectionAsScanned marker texts `sublist_of` texts.
Proof.
  unfold sectionAsScanned.
  etrans; [apply List_filter_sublist|].
  etrans; [apply takeWhile_sublist|]. apply afterFirst_sublist.
Qed.

Lemma sectionAsScanned_Forall marker texts :
  Forall (λ l, strings_TrimSpace l ≠ marker ∧ isTopLevel l = false)
    (sectionAsScanned marker texts).
Proof.
  unfold sectionAsScanned.
  pose proof (takeWhile_Forall
                (λ l, isMarker marker l || negb (isTopLevel l))
                (afterFirst (isMarker marker) texts)) as H.
  induction H as [|l ls Hl _ IH]; cbn; [constructor|].
  destruct (isMarker marker l) eqn:Hm; cbn; [exact IH|].
  constructor; [|exact IH]. cbn in Hl. split.
  - by apply bool_decide_eq_false in Hm.
  - by destruct (isTopLevel l).
Qed.

(** X8.  Whatever the file holds, no line that [extractSection] returns
    trim-equals the marker or begins with the header prefix; and the
    lines returned are lines the scanner delivered, in the order it
    delivered them, none invented, changed or repeated. *)
Theorem extractSection_lines w path marker :
  Forall (λ l, strings_TrimSpace l ≠ marker ∧ isTopLevel l = false)
    (extractSection w path marker)
  ∧ ∀ file, os_Open w path = Some file →
      extractSection w path marker `sublist_of` scannerTexts file.
Proof.
  unfold extractSection. split.
  - destruct (os_Open w path); [|constructor].
    rewrite scanLoop_section. apply sectionAsScanned_Forall.
  - intros file ->. rewrite scanLoop_section. apply sectionAsScanned_sublist.
Qed.

Lemma extractSection_lines_witness :
  extractSection exampleWorld "twice.org" SourceHeader
    `sublist_of` scanLines twiceMarkedNote.
Proof.
  apply (proj2 (extractSection_lines exampleWorld "twice.org" SourceHeader)
           (File true twiceMarkedNote)).
  vm_compute. reflexivity.
Defined.

(** ** The update loop *)

Section InsertionSort.

Variable less : Project → Project → bool.
Hypothesis less_asym : ∀ a b, less a b = true → less b a = false.
Hypothesis less_negtrans :
  ∀ a b c, less b a = false → less c b = false → less c a = false.

Lemma insertBy_perm x l : insertBy less x l ≡ₚ x :: l.
Proof.
  induction l as [|y l IH]; cbn; [done|].
  destruct (less x y); [done|]. rewrite IH. apply perm_swap.
Qed.

Lemma insertionSort_perm l : insertionSort less l ≡ₚ l.
Proof.
  induction l as [|x l IH]; cbn; [done|].
  fold (insertionSort less l). by rewrite insertBy_perm, IH.
Qed.

Lemma insertBy_ordered x l :
  ordered less l → ordered less (insertBy less x l).
Proof.
  induction l as [|y l IH]; cbn; [by intros _; split|].
  intros [Hy Hl]. destruct (less x y) eqn:Hxy; cbn.
  - split; [|by split]. constructor; [by apply less_asym|].
    eapply Forall_impl; [exact Hy|]. intros b Hb. cbn in Hb.
    apply (less_negtrans x y b); [by apply less_asym | done].
  - split; [|by apply IH].
    rewrite insertBy_perm. by constructor.
Qed.

Lemma insertionSort_ordered l : ordered less (insertionSort less l).
Proof.
  induction l as [|x l IH]; cbn; [done|]. by apply insertBy_ordered.
Qed.

Lemma ordered_lookup l : ordered less l →
  ∀ i j a b, i < j → l !! i = Some a → l !! j = Some b → less b a = false.
Proof.
  induction l as [|x l IH]; [done|]. intros [Hx Hl] i j a b Hij Ha Hb.
  destruct j as [|j]; [lia|]. cbn in Hb. destruct i as [|i].
  - injection Ha as <-. rewrite Forall_forall in Hx. apply Hx.
    by eapply list_elem_of_lookup_2.
  - cbn in Ha. apply (IH Hl i j); [lia | done..].
Qed.

End InsertionSort.

Lemma insertionSort_contract : sortContract insertionSort.
Proof.
  intros less Hasym Hneg l. split; [apply insertionSort_perm|].
  apply ordered_lookup, insertionSort_ordered; done.
Qed.

Section UpdateLoopProperties.

Variable sort_Slice : (Project → Project → bool) → list Project → list Project.
Variable filepath_Abs : string → option string.
Variable filepath_Base : string → string.
Variable instant : nat → Z.
Variable textinput_Update : string → KeyType → string → string.

Lemma sortProjects_cursorOK m :
  (0 ≤ cursor m)%Z → cursorOK (sortProjects sort_Slice m).
Proof.
  intros H0. unfold sortProjects, cursorOK. cbn [projects cursor setProjects].
  case_decide; cbn [projects cursor setProjects setCursor]; lia.
Qed.

Lemma addProject_cursorOK pathStr m w m' w' :
  cursorOK m →
  addProject sort_Slice filepath_Abs filepath_Base instant pathStr m w
  = Done m' w' →
  cursorOK m'.
Proof.
  intros Hok. unfold addProject. destruct (filepath_Abs pathStr).
  - unfold bind, time_Now_instant, saveConfig, emit, ret.
    intros [= <- <-]. apply sortProjects_cursorOK. apply Hok.
  - by intros [= <- <-].
Qed.

Lemma length_delete1 (s : list Project) (i : Z) :
  (0 ≤ i ∧ i + 1 ≤ Z.of_nat (length s))%Z →
  S (length (take (Z.to_nat i) s ++ drop (S (Z.to_nat i)) s)) = length s.
Proof. intros Hi. rewrite length_app, length_take, length_drop. lia. Qed.

(** X9.  [Update] keeps the cursor on the list: if the cursor is on a
    project, or at 0 on an empty list, then after any message that
    [Update] handles without a panic it is so again.  This holds in
    add mode and in navigation mode, and whatever [sort.Slice] does. *)
Theorem Update_keeps_cursorOK msg m input st' c w w' :
  cursorOK m →
  Update sort_Slice filepath_Abs filepath_Base instant textinput_Update
    msg (m, input) w = Done (st', c) w' →
  cursorOK st'.1.
Proof.
  intros Hok. pose proof Hok as [H0 Hlt]. unfold Update.
  destruct msg as [[|]|wd ht|type str|].
  1-3, 5: by intros [= <- <- <-].
  destruct (addingNew m).
  { destruct type; [case_decide|..]; try by intros [= <- <- <-].
    unfold bind.
    destruct (addProject _ _ _ _ _ _ _) as [m1 w1| |] eqn:Hadd; [|done..].
    intros [= <- <- <-]. eapply addProject_cursorOK in Hadd; [|exact Hok].
    exact Hadd. }
  repeat case_decide; try by intros [= <- <- <-].
  all: unfold bind, ret, saveConfig, emit, slices_Delete1, time_Now_instant.
  - intros [= <- <- <-]. unfold cursorOK. cbn. lia.
  - intros [= <- <- <-]. unfold cursorOK. cbn. lia.
  - case_decide as Hb; [|done].
    pose proof (length_delete1 _ _ Hb) as Hlen.
    cbn [projects cursor setProjects].
    case_decide; intros [= <- <- <-]; unfold cursorOK; cbn; lia.
  - destruct (currentProject m w) as [p1 w1| |]; [|done..].
    unfold assignCurrent, bind, ret.
    destruct (currentProject m w1) as [p2 w2| |]; [|done..].
    intros [= <- <- <-]. by apply sortProjects_cursorOK.
  - unfold assignCurrent, bind, ret.
    destruct (currentProject m _) as [p1 w1| |]; [|done..].
    destruct (currentProject _ w1) as [p2 w2| |]; [|done..].
    case_decide; intros [= <- <- <-].
    + unfold cursorOK. cbn. rewrite length_insert. exact Hok.
    + by apply sortProjects_cursorOK.
Qed.

(** A key reaches the navigation branch it names. *)
Lemma Update_delete_key type str m input :
  addingNew m = false → str = "d" ∨ str = "x" →
  Update sort_Slice filepath_Abs filepath_Base instant textinput_Update
    (KeyMsg type str) (m, input)
  = if decide (0 < length (projects m)) then
      ps <- slices_Delete1 (projects m) (cursor m) ;;
      let m := setProjects ps m in
      let m :=
        if decide (Z.of_nat (length (projects m)) ≤ cursor m ∧ 0 < cursor m)%Z
        then setCursor (cursor m - 1) m else m in
      do saveConfig (projects m) ;;
      ret (m, input, CmdNil)
    else ret (m, input, CmdNil).
Proof.
  intros Hnav Hstr. unfold Update. rewrite Hnav.
  by destruct Hstr as [-> | ->].
Qed.

(** X10.  In navigation mode, "d" or "x" on a non-empty list removes
    exactly the project under the cursor, keeps the others in their
    order, leaves the cursor at its index (now holding the next project)
    unless the last project was removed, in which case the cursor moves
    up to the new last one, and saves the registry once.  On an empty
    list the key does nothing and saves nothing. *)
Theorem Update_delete type str m input w :
  addingNew m = false → str = "d" ∨ str = "x" →
  (projects m = [] →
   Update sort_Slice filepath_Abs filepath_Base instant textinput_Update
     (KeyMsg type str) (m, input) w = Done (m, input, CmdNil) w)
  ∧ (cursorInRange m →
     ∃ m',
       Update sort_Slice filepath_Abs filepath_Base instant textinput_Update
         (KeyMsg type str) (m, input) w
       = Done (m', input, CmdNil) (logEvent (EvSaveConfig (projects m')) w)
       ∧ projects m' = delete (Z.to_nat (cursor m)) (projects m)
       ∧ S (length (projects m')) = length (projects m)
       ∧ cursor m'
         = (if decide (S (Z.to_nat (cursor m)) = length (projects m)
                       ∧ 0 < cursor m)%Z
            then cursor m - 1 else cursor m)%Z
       ∧ cursorOK m').
Proof.
  intros Hnav Hstr. rewrite Update_delete_key by done. split.
  - intros Hnil. rewrite Hnil. done.
  - intros [H0 Hlt]. rewrite decide_True by lia.
    unfold bind, slices_Delete1. rewrite decide_True by lia.
    unfold saveConfig, emit, ret. cbn [projects cursor setProjects].
    pose proof (length_delete1 (projects m) (cursor m) ltac:(lia)) as Hlen.
    rewrite <- delete_take_drop in Hlen |- *.
    case_decide as Hmove.
    + eexists. split; [reflexivity|]. cbn [projects cursor setCursor setProjects].
      split; [done|]. split; [done|]. split.
      * rewrite decide_True by lia. done.
      * unfold cursorOK. cbn. lia.
    + eexists. split; [reflexivity|]. cbn [projects cursor setCursor setProjects].
      split; [done|]. split; [done|]. split.
      * rewrite decide_False by lia. done.
      * unfold cursorOK. cbn. lia.
Qed.

(** The order [sortProjects] asks for, on two projects. *)
Lemma projectLess_false a b :
  projectLess b a = false →
  (Starred b = true → Starred a = true)
  ∧ (Starred a = Starred b → (LastOpened b ≤ LastOpened a)%Z).
Proof.
  unfold projectLess. destruct (Starred a), (Starred b); cbn; try done.
  all: intros H%Z.ltb_ge; split; [done | intros _; lia].
Qed.

Lemma projectLess_asym a b : projectLess a b = true → projectLess b a = false.
Proof.
  unfold projectLess. destruct (Starred a), (Starred b); cbn; try done.
  all: intros H%Z.ltb_lt; apply Z.ltb_ge; lia.
Qed.

Lemma projectLess_negtrans a b c :
  projectLess b a = false → projectLess c b = false → projectLess c a = false.
Proof.
  unfold projectLess. destruct (Starred a), (Starred b), (Starred c); cbn;
    try done.
  all: intros H1%Z.ltb_ge H2%Z.ltb_ge; apply Z.ltb_ge; lia.
Qed.

(** X11.  Given [sort.Slice]'s contract, [sortProjects] leaves the same
    projects in the list, every starred project before every project
    without a star, and among projects of the same star status the more
    recently opened first; a cursor beyond the list is put back to 0 and
    any other cursor keeps its index. *)
Theorem sortProjects_order m :
  sortContract sort_Slice →
  let m' := sortProjects sort_Slice m in
  projects m' ≡ₚ projects m
  ∧ (∀ i j a b, i < j → projects m' !! i = Some a → projects m' !! j = Some b →
       (Starred b = true → Starred a = true)
       ∧ (Starred a = Starred b → (LastOpened b ≤ LastOpened a)%Z))
  ∧ cursor m'
    = (if decide (Z.of_nat (length (projects m)) ≤ cursor m)%Z then 0
       else cursor m)%Z.
Proof.
  intros Hsort m'.
  destruct (Hsort projectLess projectLess_asym projectLess_negtrans (projects m))
    as [Hperm Hord].
  assert (projects m' = sort_Slice projectLess (projects m)) as Hps.
  { unfold m', sortProjects. by case_decide. }
  rewrite Hps. split; [exact Hperm|]. split.
  - intros i j a b Hij Ha Hb. apply projectLess_false. by eapply Hord.
  - unfold m', sortProjects. cbn [projects cursor setProjects].
    rewrite (Permutation_length Hperm). by case_decide.
Qed.

Variable filepath_Join : string → string → string.

(** X12.  In navigation mode, "enter" on a project with a non-empty path
    stamps it as opened now, neither sorts nor saves, and hands back the
    workflow command.  Whenever that command is run it ends with
    [DaemonReadyMsg], for every file system and every answer of the back
    end, also when every attach attempt failed; handling that message sets
    [daemonSpunUp].  So the status turns to on-line after any workflow run,
    whether or not the daemon ever reported itself ready. *)
Theorem Update_enter_reports_ready type m p input w :
  addingNew m = false →
  (0 ≤ cursor m)%Z → projects m !! Z.to_nat (cursor m) = Some p →
  Path p ≠ "" →
  let m1 :=
    setSelectedPath (Path p)
      (setProjects
         (<[Z.to_nat (cursor m) := setLastOpened (instant (clockReads w)) p]>
            (projects m)) m) in
  Update sort_Slice filepath_Abs filepath_Base instant textinput_Update
    (KeyMsg type "enter") (m, input) w
  = Done (m1, input, CmdWorkflow (Path p) m1) (setClockReads (S (clockReads w)) w)
  ∧ ∀ stderr w1, ∃ m2 w2,
      runCmd filepath_Join stderr (CmdWorkflow (Path p) m1) m1 w1
      = Done (m2, Some DaemonReadyMsg) w2
      ∧ Update sort_Slice filepath_Abs filepath_Base instant textinput_Update
          (OwnMsg DaemonReadyMsg) (m2, input) w2
        = Done (setDaemonSpunUp true m2, input, CmdNil) w2.
Proof.
  intros Hnav H0 Hp Hpath m1. split.
  - unfold Update. rewrite Hnav. cbn [decide].
    repeat (rewrite decide_False by (intros [?|?]; discriminate)).
    rewrite decide_False by discriminate.
    repeat (rewrite decide_False by (intros [?|?]; discriminate)).
    rewrite decide_False by discriminate.
    rewrite decide_True by done.
    rewrite decide_True by (by eapply Nat.le_lt_trans, lookup_lt_Some; [lia|]).
    unfold bind at 1, time_Now_instant. unfold bind at 1, assignCurrent.
    unfold bind at 1. erewrite currentProject_ok by done.
    unfold ret at 1. unfold bind at 1.
    erewrite currentProject_ok;
      [| done | cbn; apply list_lookup_insert_eq; by eapply lookup_lt_Some].
    cbn [Path setLastOpened]. rewrite decide_True by done. done.
  - intros stderr w1. unfold runCmd, bind.
    destruct (runDailyWorkflow_returns filepath_Join (Path p) m1 w1)
      as (m2 & w2 & ->).
    { split; [done|]. cbn. rewrite length_insert. by eapply lookup_lt_Some. }
    by eexists _, _.
Qed.


End UpdateLoopProperties.

Lemma Update_keeps_cursorOK_witness :
  cursorOK (setProjects [] exampleModel).
Proof.
  apply (Update_keeps_cursorOK insertionSort (λ s, Some s) (λ s, s) (λ _, 0%Z)
           (λ i _ _, i) (KeyMsg KeyOther "d") exampleModel ""
           (setProjects [] exampleModel, "") CmdNil exampleWorld
           (logEvent (EvSaveConfig []) exampleWorld)).
  - split; cbn; lia.
  - vm_compute. reflexivity.
Defined.

Lemma Update_delete_witness :
  Update insertionSort (λ s, Some s) (λ s, s) (λ _, 0%Z) (λ i _ _, i)
    (KeyMsg KeyOther "x") (setProjects [] exampleModel, "") exampleWorld
  = Done (setProjects [] exampleModel, "", CmdNil) exampleWorld
  ∧ ∃ m',
      Update insertionSort (λ s, Some s) (λ s, s) (λ _, 0%Z) (λ i _ _, i)
        (KeyMsg KeyOther "d") (exampleModel, "") exampleWorld
      = Done (m', "", CmdNil) (logEvent (EvSaveConfig (projects m')) exampleWorld)
      ∧ projects m'
        = delete (Z.to_nat (cursor exampleModel)) (projects exampleModel)
      ∧ S (length (projects m')) = length (projects exampleModel)
      ∧ cursor m'
        = (if decide (S (Z.to_nat (cursor exampleModel))
                      = length (projects exampleModel)
                      ∧ 0 < cursor exampleModel)%Z
           then cursor exampleModel - 1 else cursor exampleModel)%Z
      ∧ cursorOK m'.
Proof.
  split.
  - apply (Update_delete insertionSort (λ s, Some s) (λ s, s) (λ _, 0%Z)
             (λ i _ _, i) KeyOther "x" (setProjects [] exampleModel) ""
             exampleWorld); [reflexivity | by right | reflexivity].
  - apply (Update_delete insertionSort (λ s, Some s) (λ s, s) (λ _, 0%Z)
             (λ i _ _, i) KeyOther "d" exampleModel "" exampleWorld);
      [reflexivity | by left | split; cbn; lia].
Defined.

Lemma sortProjects_order_witness :
  let m := setProjects
             [exampleProject; setStarred true (setLastOpened 5 exampleProject);
              setLastOpened 9 exampleProject] exampleModel in
  let m' := sortProjects insertionSort m in
  projects m' ≡ₚ projects m
  ∧ (∀ i j a b, i < j → projects m' !! i = Some a → projects m' !! j = Some b →
       (Starred b = true → Starred a = true)
       ∧ (Starred a = Starred b → (LastOpened b ≤ LastOpened a)%Z))
  ∧ cursor m'
    = (if decide (Z.of_nat (length (projects m)) ≤ cursor m)%Z then 0
       else cursor m)%Z.
Proof.
  intros m. apply (sortProjects_order insertionSort m insertionSort_contract).
Defined.

Lemma Update_enter_reports_ready_witness :
  Update insertionSort (λ s, Some s) (λ s, s) (λ _, 7%Z) (λ i _ _, i)
    (KeyMsg KeyEnter "enter") (exampleModel, "") exampleWorld
  = Done (setSelectedPath "/notes"
            (setProjects [setLastOpened 7 exampleProject] exampleModel), "",
          CmdWorkflow "/notes"
            (setSelectedPath "/notes"
               (setProjects [setLastOpened 7 exampleProject] exampleModel)))
      (setClockReads 1 exampleWorld)
  ∧ ∀ stderr w1, ∃ m2 w2,
      runCmd exampleJoin stderr
        (CmdWorkflow "/notes"
           (setSelectedPath "/notes"
              (setProjects [setLastOpened 7 exampleProject] exampleModel)))
        (setSelectedPath "/notes"
           (setProjects [setLastOpened 7 exampleProject] exampleModel)) w1
      = Done (m2, Some DaemonReadyMsg) w2
      ∧ Update insertionSort (λ s, Some s) (λ s, s) (λ _, 7%Z) (λ i _ _, i)
          (OwnMsg DaemonReadyMsg) (m2, "") w2
        = Done (setDaemonSpunUp true m2, "", CmdNil) w2.
Proof.
  apply (Update_enter_reports_ready insertionSort (λ s, Some s)
           (λ s, s) (λ _, 7%Z) (λ i _ _, i) exampleJoin KeyEnter
           exampleModel exampleProject "" exampleWorld
           eq_refl ltac:(cbn; lia) eq_refl ltac:(discriminate)).
Defined.


(** ** The scanner on lines written out with line feeds *)

Lemma splitLines_app a b :
  noLF a = true →
  splitLines (a +:+ b) = (a +:+ (splitLines b).1, (splitLines b).2).
Proof.
  induction a as [|c a IH]; intros Ha.
  - change ("" +:+ b) with b. destruct (splitLines b). reflexivity.
  - cbn [noLF] in Ha. case_decide as Hc; [done|].
    rewrite append_cons. cbn [splitLines]. rewrite IH by done.
    cbn. by rewrite decide_False.
Qed.

Lemma splitLines_nl b :
  splitLines (nl +:+ b) = ("", (splitLines b).1 :: (splitLines b).2).
Proof.
  unfold nl. rewrite append_cons. cbn [splitLines].
  change ("" +:+ b) with b. destruct (splitLines b). by rewrite decide_True.
Qed.

Lemma splitLines_joinLines pre s :
  Forall (λ l, noLF l = true) pre →
  (splitLines (joinLines pre +:+ s)).1 :: (splitLines (joinLines pre +:+ s)).2
  = pre ++ (splitLines s).1 :: (splitLines s).2.
Proof.
  induction 1 as [|l pre Hl _ IH]; [done|].
  rewrite joinLines_cons, !append_assoc, splitLines_app by done.
  rewrite splitLines_nl. cbn [fst snd]. rewrite append_empty_r.
  cbn [app]. by rewrite IH.
Qed.

(** The scanner's pieces of lines written out followed by more input are
    those lines, then the pieces of the rest. *)
Lemma rawLines_joinLines pre s :
  Forall (λ l, noLF l = true) pre →
  rawLines (joinLines pre +:+ s) = pre ++ rawLines s.
Proof.
  intros Hpre. unfold rawLines.
  pose proof (splitLines_joinLines pre s Hpre) as Hall.
  destruct (splitLines (joinLines pre +:+ s)) as [f' r'].
  destruct (splitLines s) as [f r]. cbn [fst snd] in Hall. rewrite Hall.
  rewrite last_app_cons.
  destruct (last (f :: r)) as [[|]|]; try done.
  rewrite length_app. cbn [length].
  rewrite take_app_ge by lia. f_equal. f_equal. lia.
Qed.

Lemma rawLines_joined ls :
  Forall (λ l, noLF l = true) ls → rawLines (joinLines ls) = ls.
Proof.
  intros Hls. rewrite <- (append_empty_r (joinLines ls)).
  rewrite rawLines_joinLines by done. change (rawLines "") with (@nil string).
  apply app_nil_r.
Qed.

(** An unfinished or finished line that starts the input is the scanner's
    first piece. *)
Lemma rawLines_first long rest :
  noLF long = true → ∃ tl, rawLines (long +:+ nl +:+ rest) = long :: tl.
Proof.
  intros Hlong. unfold rawLines. rewrite splitLines_app, splitLines_nl by done.
  cbn [fst snd]. rewrite append_empty_r.
  destruct (splitLines rest) as [f r]. cbn [fst snd].
  destruct (last (long :: f :: r)) as [[|]|]; eauto.
Qed.

Lemma takeFitting_app pre tl :
  Forall (λ l, fitsBuffer l = true) pre →
  takeFitting (pre ++ tl) = pre ++ takeFitting tl.
Proof.
  induction 1 as [|l pre Hl _ IH]; [done|]. cbn. by rewrite Hl, IH.
Qed.

Lemma writable_noLF ls :
  Forall writable ls → Forall (λ l, noLF l = true) ls.
Proof. intros H. eapply Forall_impl; [exact H|]. by intros l [? ?]. Qed.

Lemma writable_fits ls :
  Forall writable ls → Forall (λ l, fitsBuffer l = true) ls.
Proof. intros H. eapply Forall_impl; [exact H|]. by intros l [? ?]. Qed.

(** Lines written out with line feeds come back from the scanner, each
    without one trailing carriage return. *)
Lemma scanLines_joinLines ls :
  Forall writable ls → scanLines (joinLines ls) = dropCR <$> ls.
Proof.
  intros Hls. unfold scanLines.
  rewrite rawLines_joined by by apply writable_noLF.
  rewrite <- (app_nil_r ls) at 1.
  rewrite takeFitting_app by by apply writable_fits.
  by rewrite app_nil_r.
Qed.

(** X14.  The scanner stops for good at the first line that does not fit
    its buffer: the lines before it are delivered, the over-long line and
    everything after it are not, whatever they hold.  So a stream whose
    earlier lines do not contain the marker leaves the command started
    on [StartDaemonMsg] blocked, even when a later line contains it. *)
Theorem scanLines_stops_at_long_line pre long rest :
  Forall writable pre → noLF long = true → fitsBuffer long = false →
  let stream := joinLines pre +:+ long +:+ nl +:+ rest in
  scanLines stream = dropCR <$> pre
  ∧ ∀ w, logCreatable w →
      Forall (λ l, strings_Contains (dropCR l) DoomLoadedMsg = false) pre →
      ∃ w', startDaemonCmd stream w = Blocked w'.
Proof.
  intros Hpre Hlf Hlong stream.
  assert (scanLines stream = dropCR <$> pre) as Hscan.
  { unfold stream, scanLines.
    rewrite rawLines_joinLines by by apply writable_noLF.
    destruct (rawLines_first long rest Hlf) as [tl ->].
    rewrite takeFitting_app by by apply writable_fits.
    cbn [takeFitting]. by rewrite Hlong, app_nil_r. }
  split; [exact Hscan|]. intros w Hlog Hnone.
  destruct (startDaemonCmd_outcome stream w Hlog) as (w' & _ & ->).
  rewrite Hscan.
  assert (matchCount (dropCR <$> pre) = 0) as ->.
  { apply matchCount_zero. intros line Hin.
    apply list_elem_of_fmap in Hin as (l & -> & Hin).
    by eapply Forall_forall in Hnone. }
  rewrite decide_False by lia. by eexists.
Qed.

Lemma scanLines_stops_at_long_line_witness :
  scanLines (joinLines ["Loading init.el"] +:+ overlongLine +:+ nl
             +:+ loadedStderr)
  = dropCR <$> ["Loading init.el"]
  ∧ ∀ w, logCreatable w →
      Forall (λ l, strings_Contains (dropCR l) DoomLoadedMsg = false)
        ["Loading init.el"] →
      ∃ w', startDaemonCmd (joinLines ["Loading init.el"] +:+ overlongLine
                            +:+ nl +:+ loadedStderr) w = Blocked w'.
Proof.
  apply (scanLines_stops_at_long_line ["Loading init.el"] overlongLine
           loadedStderr).
  - constructor; [split; vm_compute; reflexivity | constructor].
  - vm_compute. reflexivity.
  - vm_compute. reflexivity.
Defined.

(** ** Strings: reversal, carriage returns, line feeds *)

Lemma rev_app_append s acc : String.rev_app s acc = String.rev s +:+ acc.
Proof.
  unfold String.rev. revert acc. induction s as [|a s IH]; intros acc; [done|].
  cbn [String.rev_app]. rewrite (IH (String a acc)), (IH (String a "")).
  by rewrite append_assoc.
Qed.

Lemma rev_cons a s : String.rev (String a s) = String.rev s +:+ String a "".
Proof. unfold String.rev at 1. cbn [String.rev_app]. apply rev_app_append. Qed.

Lemma rev_snoc s a : String.rev (s +:+ String a "") = String a (String.rev s).
Proof.
  induction s as [|b s IH]; [done|].
  rewrite append_cons, !rev_cons, IH. done.
Qed.

Lemma rev_involutive s : String.rev (String.rev s) = s.
Proof.
  induction s as [|a s IH]; [done|]. by rewrite rev_cons, rev_snoc, IH.
Qed.

(** [dropCR] takes one carriage return off the end, or nothing. *)
Lemma dropCR_cases line :
  dropCR line = line ∨ line = dropCR line +:+ String CR "".
Proof.
  unfold dropCR. destruct (String.rev line) as [|c r] eqn:Hrev; [by left|].
  case_decide as Hc; [|by left]. right. subst c.
  by rewrite <- (rev_involutive line), Hrev, rev_cons.
Qed.

Lemma dropCR_snoc_other line c : c ≠ CR → dropCR (line +:+ String c "") = line +:+ String c "".
Proof. intros Hc. unfold dropCR. by rewrite rev_snoc, decide_False. Qed.

Lemma noLF_app a b : noLF (a +:+ b) = noLF a && noLF b.
Proof.
  induction a as [|c a IH]; [done|]. rewrite append_cons. cbn [noLF].
  by case_decide.
Qed.

Lemma length_append a b :
  String.length (a +:+ b) = String.length a + String.length b.
Proof.
  induction a as [|c a IH]; [done|]. rewrite append_cons. cbn. by rewrite IH.
Qed.

Lemma dropCR_writable line : writable line → writable (dropCR line).
Proof.
  intros [Hlf Hfit]. destruct (dropCR_cases line) as [-> | Heq]; [done|].
  rewrite Heq in Hlf, Hfit. rewrite noLF_app in Hlf.
  apply andb_true_iff in Hlf as [Hlf _]. split; [done|].
  unfold fitsBuffer in *. rewrite length_append in Hfit.
  apply N.ltb_lt in Hfit. apply N.ltb_lt. lia.
Qed.

Lemma splitLines_noLF s :
  noLF (splitLines s).1 = true ∧ Forall (λ l, noLF l = true) (splitLines s).2.
Proof.
  induction s as [|c s [IH1 IH2]]; [by split|]. cbn [splitLines].
  destruct (splitLines s) as [cur rest]. cbn [fst snd] in *.
  case_decide as Hc; cbn [fst snd].
  - split; [done|]. by constructor.
  - split; [|done]. cbn [noLF]. by rewrite decide_False.
Qed.

Lemma rawLines_noLF s : Forall (λ l, noLF l = true) (rawLines s).
Proof.
  unfold rawLines. pose proof (splitLines_noLF s) as [H1 H2].
  destruct (splitLines s) as [f r]. cbn [fst snd] in *.
  assert (Forall (λ l, noLF l = true) (f :: r)) as Hall by by constructor.
  destruct (last (f :: r)) as [[|]|]; try done.
  by apply Forall_take.
Qed.

Lemma takeFitting_writable ls :
  Forall (λ l, noLF l = true) ls → Forall writable (takeFitting ls).
Proof.
  induction 1 as [|l ls Hl _ IH]; [constructor|]. cbn.
  destruct (fitsBuffer l) eqn:Hfit; [|constructor].
  constructor; [by split | exact IH].
Qed.

(** Every line the scanner delivers can be written out and scanned
    again. *)
Lemma scanLines_writable s : Forall writable (scanLines s).
Proof.
  unfold scanLines. apply Forall_fmap.
  eapply Forall_impl; [apply takeFitting_writable, rawLines_noLF|].
  intros l Hl. by apply dropCR_writable.
Qed.

Lemma Forall_sublist_of {A} (P : A → Prop) (l1 l2 : list A) :
  l1 `sublist_of` l2 → Forall P l2 → Forall P l1.
Proof.
  intros Hsub Hall. apply Forall_forall. intros x Hx.
  eapply Forall_forall; [exact Hall|]. by eapply elem_of_sublist.
Qed.

(** What [extractSection] returns can be written out and scanned again. *)
Lemma extractSection_writable w path marker :
  Forall writable (extractSection w path marker).
Proof.
  unfold extractSection. destruct (os_Open w path) as [file|]; [|constructor].
  rewrite scanLoop_section.
  eapply Forall_sublist_of; [apply sectionAsScanned_sublist|].
  destruct file; [apply scanLines_writable | constructor].
Qed.

Lemma migrated_writable w yest : Forall writable (migrated w yest).
Proof.
  unfold migrated. destruct (statOk w yest); [|constructor].
  apply extractSection_writable.
Qed.

Lemma todoLines_writable ls : Forall writable ls → Forall writable (todoLines ls).
Proof.
  intros Hls. destruct ls; [|done].
  constructor; [split; vm_compute; reflexivity | constructor].
Qed.

(** ** Dates as [Format] writes them *)

Lemma digit_code n : nat_of_ascii (digit n) = 48 + n mod 10.
Proof.
  unfold digit, byte. apply nat_ascii_embedding.
  pose proof (Nat.mod_upper_bound n 10). lia.
Qed.

Lemma digit_not_LF n : digit n ≠ LF.
Proof.
  intros H. apply (f_equal nat_of_ascii) in H. rewrite digit_code in H.
  change (nat_of_ascii LF) with 10 in H. lia.
Qed.

Lemma digit_not_CR n : digit n ≠ CR.
Proof.
  intros H. apply (f_equal nat_of_ascii) in H. rewrite digit_code in H.
  change (nat_of_ascii CR) with 13 in H. lia.
Qed.

Lemma noLF_lowDigits width : ∀ n, noLF (lowDigits width n) = true.
Proof.
  induction width as [|width IH]; intros n; [done|]. cbn [lowDigits].
  rewrite noLF_app, IH. cbn [noLF andb].
  by rewrite decide_False by apply digit_not_LF.
Qed.

(** The title line of a note dated in the first ten thousand years is a
    line the scanner reads back as it is. *)
Lemma title_writable t :
  year t < 10 ^ 4 → month t < 10 ^ 2 → day t < 10 ^ 2 →
  let title := "#+TITLE: Daily Note " +:+ Format t in
  writable title ∧ dropCR title = title.
Proof.
  intros Hy Hm Hd title.
  destruct (Format_shape t Hy Hm Hd) as [Hshape Hlen]. split; [split|].
  - unfold title. rewrite Hshape, !noLF_app, !noLF_lowDigits. reflexivity.
  - unfold title, fitsBuffer. rewrite length_append, Hlen. reflexivity.
  - unfold title. rewrite Hshape.
    change (lowDigits 2 (day t))
      with (lowDigits 1 (day t / 10) +:+ String (digit (day t)) "").
    rewrite <- !append_assoc. apply dropCR_snoc_other, digit_not_CR.
Qed.

(** ** A note written and read again *)

(** X15.  What [createDailyNote] writes, the scanner that [extractSection]
    runs reads back line for line: the title line, a blank line, the to-do
    marker, the migrated lines (each without a carriage return that ended
    it) or the placeholder, a blank line and the unfinished-work marker,
    and nothing else.  No line is cut, joined or lost on the way. *)
Theorem createDailyNote_scans_back today yest m w :
  fs w !! today = None → today ∉ denied w →
  let t := now w (clockReads w) in
  year t < 10 ^ 4 → month t < 10 ^ 2 → day t < 10 ^ 2 →
  ∃ file,
    os_Open (worldOf (createDailyNote today yest m w)) today = Some file
    ∧ scannerTexts file
      = ["#+TITLE: Daily Note " +:+ Format t; ""; DestinationHeader]
        ++ (dropCR <$> todoLines (migrated w yest)) ++ [""; SourceHeader].
Proof.
  intros Hnone Hden t Hy Hm Hd.
  destruct (title_writable t Hy Hm Hd) as [Htitle Hdrop].
  eexists. split.
  - unfold os_Open. rewrite createDailyNote_written by done.
    rewrite lookup_insert_eq. reflexivity.
  - cbn [scannerTexts]. fold t. rewrite noteText_lines.
    rewrite scanLines_joinLines.
    + rewrite !fmap_app. cbn [fmap list_fmap]. by rewrite Hdrop.
    + apply Forall_app. split; [|apply Forall_app; split].
      * constructor; [exact Htitle|].
        repeat (constructor; [split; vm_compute; reflexivity|]). constructor.
      * apply todoLines_writable, migrated_writable.
      * repeat (constructor; [split; vm_compute; reflexivity|]). constructor.
Qed.

Lemma createDailyNote_scans_back_witness :
  ∃ file,
    os_Open (worldOf (createDailyNote "2024-01-02.org" "2024-01-01.org"
                        exampleModel exampleWorld)) "2024-01-02.org"
    = Some file
    ∧ scannerTexts file
      = ["#+TITLE: Daily Note "
           +:+ Format (now exampleWorld (clockReads exampleWorld));
         ""; DestinationHeader]
        ++ (dropCR <$> todoLines (migrated exampleWorld "2024-01-01.org"))
        ++ [""; SourceHeader].
Proof.
  apply (createDailyNote_scans_back "2024-01-02.org" "2024-01-01.org"
           exampleModel exampleWorld).
  - vm_compute. reflexivity.
  - apply not_elem_of_empty.
  - cbn. lia.
  - cbn. lia.
  - cbn. lia.
Defined.

(** ** White space at the ends of a line *)

Lemma spaceRune_snoc_CR pre : pre ≠ [] → spaceRune (pre ++ [13%N]) = false.
Proof.
  intros Hne. destruct (spaceRune (pre ++ [13%N])) eqn:E; [|done]. exfalso.
  destruct pre as [|a [|b [|c pre]]]; [done|..]; cbn [app] in E;
    unfold spaceRune in E.
  - repeat case_match; try done; apply bool_decide_eq_true in E; lia.
  - repeat case_match; try done; apply bool_decide_eq_true in E; lia.
  - destruct pre; cbn [app] in E; repeat case_match; done.
Qed.

Lemma spaceRune_hash bs : spaceRune (35%N :: bs) = false.
Proof.
  destruct bs as [|a [|b [|c bs]]]; unfold spaceRune; repeat case_match; done.
Qed.

Lemma leadingSpace_snoc bs :
  bs ≠ [] → leadingSpace (bs ++ [13%N]) = leadingSpace bs.
Proof.
  intros Hne. unfold leadingSpace.
  destruct bs as [|a [|b [|c bs]]]; [done|..]; cbn [app take].
  - assert (spaceRune [a; 13%N] = false) as ->
      by by apply (spaceRune_snoc_CR [a]).
    by destruct (spaceRune [a]).
  - assert (spaceRune [a; b; 13%N] = false) as ->
      by by apply (spaceRune_snoc_CR [a; b]).
    by destruct (spaceRune [a]), (spaceRune [a; b]).
  - done.
Qed.

Lemma leadingSpace_le bs : leadingSpace bs ≤ length bs.
Proof.
  unfold leadingSpace. destruct bs as [|a [|b [|c bs]]]; cbn [take length].
  - change (spaceRune []) with false. cbn. lia.
  - destruct (spaceRune [a]); lia.
  - destruct (spaceRune [a]), (spaceRune [a; b]); lia.
  - repeat case_match; lia.
Qed.

Lemma trimLeft_nil n : trimLeft n [] = [].
Proof. by destruct n. Qed.

Lemma trimLeft_snoc : ∀ n bs,
  length bs ≤ n →
  trimLeft (S n) (bs ++ [13%N])
  = match trimLeft n bs with [] => [] | l => l ++ [13%N] end.
Proof.
  induction n as [|n IH]; intros bs Hlen.
  - destruct bs; [|cbn in Hlen; lia]. reflexivity.
  - destruct (decide (bs = [])) as [->|Hne].
    { change (trimLeft (S (S n)) ([] ++ [13%N])) with (trimLeft (S n) []).
      by rewrite !trimLeft_nil. }
    cbn [trimLeft]. rewrite leadingSpace_snoc by done.
    pose proof (leadingSpace_le bs) as Hle.
    destruct (leadingSpace bs) as [|k] eqn:Hk.
    + by destruct bs.
    + rewrite drop_app_le by lia.
      change (match leadingSpace (drop (S k) bs ++ [13%N]) with
              | 0 => drop (S k) bs ++ [13%N]
              | S n0 =>
                  trimLeft n (drop (S n0) (drop (S k) bs ++ [13%N]))
              end) with (trimLeft (S n) (drop (S k) bs ++ [13%N])).
      apply IH. rewrite length_drop. lia.
Qed.

Lemma trimRightRev_CR n r : trimRightRev (S n) (13%N :: r) = trimRightRev n r.
Proof. reflexivity. Qed.

Lemma codes_snoc s c : codes (s +:+ String c "") = codes s ++ [N_of_ascii c].
Proof.
  unfold codes. induction s as [|a s IH]; [done|].
  rewrite append_cons. cbn [String.list_ascii_of_string fmap list_fmap].
  rewrite IH. reflexivity.
Qed.

(** [strings.TrimSpace] does not see a carriage return at the end. *)
Lemma strings_TrimSpace_snoc_CR s :
  strings_TrimSpace (s +:+ String CR "") = strings_TrimSpace s.
Proof.
  unfold strings_TrimSpace. rewrite codes_snoc.
  change (N_of_ascii CR) with 13%N. set (bs := codes s).
  rewrite length_app. cbn [length]. rewrite Nat.add_1_r.
  rewrite trimLeft_snoc by done.
  destruct (trimLeft (length bs) bs) as [|x l]; [done|].
  rewrite length_app. cbn [length]. rewrite Nat.add_1_r.
  rewrite reverse_snoc.
  by rewrite trimRightRev_CR.
Qed.

Lemma strings_TrimSpace_dropCR line :
  strings_TrimSpace (dropCR line) = strings_TrimSpace line.
Proof.
  destruct (dropCR_cases line) as [-> | Heq]; [done|].
  set (d := dropCR line) in *. rewrite Heq.
  symmetry. apply strings_TrimSpace_snoc_CR.
Qed.

Lemma trimRightRev_drop : ∀ n r, ∃ k, trimRightRev n r = drop k r.
Proof.
  induction n as [|n IH]; intros r; [by exists 0|]. cbn [trimRightRev].
  destruct (trailingSpace r) as [|w]; [by exists 0|].
  destruct (IH (drop (S w) r)) as [k ->]. exists (S w + k).
  by rewrite drop_drop.
Qed.

(** A line that starts with the number sign is not the unfinished-work
    marker, however much white space ends it. *)
Lemma strings_TrimSpace_hash rest :
  strings_TrimSpace (String "#" rest) ≠ SourceHeader.
Proof.
  unfold strings_TrimSpace.
  change (codes (String "#" rest)) with (35%N :: codes rest).
  set (bs := codes rest). cbn [length trimLeft].
  assert (leadingSpace (35%N :: bs) = 0) as ->.
  { unfold leadingSpace. cbn [take]. by rewrite !spaceRune_hash. }
  destruct (trimRightRev_drop (length (35%N :: bs)) (reverse (35%N :: bs)))
    as [k ->].
  rewrite drop_reverse, reverse_involutive.
  destruct (length (35%N :: bs) - k); cbn; discriminate.
Qed.

Lemma strings_HasPrefix_app p : ∀ s x,
  strings_HasPrefix s p = true → strings_HasPrefix (s +:+ x) p = true.
Proof.
  induction p as [|c p IH]; intros s x; [by destruct (s +:+ x)|].
  destruct s as [|a s]; [done|]. rewrite append_cons.
  change (strings_HasPrefix (String a s) (String c p))
    with (if decide (c = a) then strings_HasPrefix s p else false).
  change (strings_HasPrefix (String a (s +:+ x)) (String c p))
    with (if decide (c = a) then strings_HasPrefix (s +:+ x) p else false).
  case_decide; [apply IH | done].
Qed.

Lemma isTopLevel_dropCR line :
  isTopLevel line = false → isTopLevel (dropCR line) = false.
Proof.
  intros Hl. destruct (dropCR_cases line) as [-> | Heq]; [done|].
  destruct (isTopLevel (dropCR line)) eqn:Hd; [|done].
  rewrite Heq in Hl. unfold isTopLevel in *.
  by rewrite (strings_HasPrefix_app _ _ _ Hd) in Hl.
Qed.

(** ** From one day's note to the next *)

(** While capturing, lines that are neither the marker nor a header are
    all taken. *)
Lemma scanLoop_all marker ls : ∀ acc,
  Forall (λ l, strings_TrimSpace l ≠ marker ∧ isTopLevel l = false) ls →
  scanLoop marker true acc ls = acc ++ ls.
Proof.
  induction ls as [|l ls IH]; intros acc Hls.
  - cbn. by rewrite app_nil_r.
  - apply Forall_cons in Hls as [[Hm Ht] Hls].
    rewrite scanLoop_plain, IH by done. by rewrite <- app_assoc.
Qed.

(** The lines of a note that [createDailyNote] wrote and to which lines
    were added, as the scanner delivers them. *)
Lemma noteText_appended_scanned t ls items :
  year t < 10 ^ 4 → month t < 10 ^ 2 → day t < 10 ^ 2 →
  Forall writable ls → Forall writable items →
  scanLines (noteText (Format t) ls +:+ joinLines items)
  = (["#+TITLE: Daily Note " +:+ Format t; ""; DestinationHeader]
     ++ (dropCR <$> todoLines ls) ++ [""])
    ++ SourceHeader :: (dropCR <$> items).
Proof.
  intros Hy Hm Hd Hls Hitems.
  destruct (title_writable t Hy Hm Hd) as [Htitle Hdrop].
  rewrite noteText_lines, <- joinLines_app, scanLines_joinLines.
  - rewrite !fmap_app. cbn [fmap list_fmap]. rewrite Hdrop.
    by rewrite <- !app_assoc.
  - repeat (apply Forall_app; split); [| |..|exact Hitems].
    + constructor; [exact Htitle|].
      repeat (constructor; [split; vm_compute; reflexivity|]). constructor.
    + by apply todoLines_writable.
    + repeat (constructor; [split; vm_compute; reflexivity|]). constructor.
Qed.

(** In such a note the unfinished-work section is what was added. *)
Lemma scanLoop_note t ls items :
  Forall (λ l, strings_TrimSpace l ≠ SourceHeader) ls →
  Forall (λ l, strings_TrimSpace l ≠ SourceHeader ∧ isTopLevel l = false)
    items →
  scanLoop SourceHeader false []
    ((["#+TITLE: Daily Note " +:+ Format t; ""; DestinationHeader]
      ++ (dropCR <$> todoLines ls) ++ [""])
     ++ SourceHeader :: (dropCR <$> items))
  = dropCR <$> items.
Proof.
  intros Hls Hitems. rewrite scanLoop_searching, afterFirst_app.
  - rewrite scanLoop_all; [done|]. apply Forall_fmap.
    eapply Forall_impl; [exact Hitems|]. intros l [Hm Ht]. cbn. split.
    + by rewrite strings_TrimSpace_dropCR.
    + by apply isTopLevel_dropCR.
  - apply not_marker_false.
    repeat (apply Forall_app; split).
    + constructor; [apply strings_TrimSpace_hash|].
      repeat (constructor; [vm_compute; discriminate|]). constructor.
    + apply Forall_fmap. destruct ls as [|l ls]; cbn [todoLines].
      * constructor; [vm_compute; discriminate | constructor].
      * eapply Forall_impl; [exact Hls|]. intros x Hx. cbn.
        by rewrite strings_TrimSpace_dropCR.
    + constructor; [vm_compute; discriminate | constructor].
  - apply bool_decide_eq_true_2. vm_compute. reflexivity.
Qed.

Lemma migrated_not_marker w yest :
  Forall (λ l, strings_TrimSpace l ≠ SourceHeader) (migrated w yest).
Proof.
  unfold migrated. destruct (statOk w yest); [|constructor].
  unfold extractSection. destruct (os_Open w yest); [|constructor].
  rewrite scanLoop_section.
  eapply Forall_impl; [apply sectionAsScanned_Forall|]. by intros l [? ?].
Qed.

(** X16.  What is written under the unfinished-work marker of a note that
    [createDailyNote] created is what the next note takes over.  If lines
    are added at the end of the new note, none of them a header or the
    marker itself, [extractSection] returns exactly these lines (each
    without a carriage return that ended it), and a note created from this
    one is written with them as its to-do lines.  With nothing added,
    nothing is taken over and the next note gets the placeholder: a note
    never hands on its own to-do lines. *)
Theorem createDailyNote_hands_on today yest m w c w2 items :
  fs w !! today = None → today ∉ denied w →
  let t := now w (clockReads w) in
  year t < 10 ^ 4 → month t < 10 ^ 2 → day t < 10 ^ 2 →
  fs (worldOf (createDailyNote today yest m w)) !! today = Some (File true c) →
  fs w2 !! today = Some (File true (c +:+ joinLines items)) →
  Forall writable items →
  Forall (λ l, strings_TrimSpace l ≠ SourceHeader ∧ isTopLevel l = false)
    items →
  extractSection w2 today SourceHeader = dropCR <$> items
  ∧ ∀ tomorrow m2,
      fs w2 !! tomorrow = None → tomorrow ∉ denied w2 →
      fs (worldOf (createDailyNote tomorrow today m2 w2)) !! tomorrow
      = Some (File true (noteText (Format (now w2 (clockReads w2)))
                           (dropCR <$> items))).
Proof.
  intros Hnone Hden t Hy Hm Hd Hc Hfile Hw Hitems.
  rewrite createDailyNote_written, lookup_insert_eq in Hc by done.
  injection Hc as <-. fold t in Hfile.
  assert (extractSection w2 today SourceHeader = dropCR <$> items) as Hex.
  { unfold extractSection, os_Open. rewrite Hfile. cbn [scannerTexts].
    rewrite noteText_appended_scanned
      by (try done; apply migrated_writable).
    apply scanLoop_note; [apply migrated_not_marker | done]. }
  split; [exact Hex|]. intros tomorrow m2 Hnone2 Hden2.
  rewrite createDailyNote_written by done. rewrite lookup_insert_eq.
  unfold migrated. rewrite (proj2 (statOk_true w2 today)) by by rewrite Hfile.
  by rewrite Hex.
Qed.

Lemma createDailyNote_hands_on_witness :
  extractSection editedWorld "2024-01-02.org" SourceHeader
  = dropCR <$> ["- call the bank"; "  - again"]
  ∧ ∀ tomorrow m2,
      fs editedWorld !! tomorrow = None → tomorrow ∉ denied editedWorld →
      fs (worldOf (createDailyNote tomorrow "2024-01-02.org" m2 editedWorld))
        !! tomorrow
      = Some (File true
                (noteText (Format (now editedWorld (clockReads editedWorld)))
                   (dropCR <$> ["- call the bank"; "  - again"]))).
Proof.
  apply (createDailyNote_hands_on "2024-01-02.org" "2024-01-01.org"
           exampleModel exampleWorld
           (noteText "2024-01-02" ["- task1"; "- task2"])).
  - vm_compute. reflexivity.
  - apply not_elem_of_empty.
  - cbn. lia.
  - cbn. lia.
  - cbn. lia.
  - vm_compute. reflexivity.
  - vm_compute. reflexivity.
  - repeat (constructor; [split; vm_compute; reflexivity|]). constructor.
  - repeat (constructor; [split; [vm_compute; discriminate
                                 | vm_compute; reflexivity]|]).
    constructor.
Defined.
